(** * API link processing for the documentation build (docs/process-api-links.py)

    A shallow embedding of the MkDocs hook that rewrites [[text](api:key)]
    links against an index built from the API site's navigation page, and
    the properties of the index builder and of the link rewriter.

    Python [str] values are modelled as [string]; a character is a code
    point below 256.  The process-wide globals, the number of network
    requests issued and the lines printed are threaded explicitly through a
    [world] record.  The collaborators that live outside the module
    (the HTTP transport, the HTML parser, [urljoin], [difflib]) are the
    fields of an environment record [Env]. *)

From Stdlib Require Import String Ascii List Bool Arith ZArith Lia DecimalString.
From Equations Require Import Equations.
Import ListNotations.

Open Scope string_scope.
Open Scope bool_scope.

(** ** Python string primitives *)

Module PyStr.

(** [s.startswith(p)]. *)
Fixpoint startswith (p s : string) : bool :=
  match p, s with
  | EmptyString, _ => true
  | String a p', String b s' => Ascii.eqb a b && startswith p' s'
  | String _ _, EmptyString => false
  end.

(** Offset of the first occurrence of [sub] in [s], if any. *)
Fixpoint find_nat (sub s : string) : option nat :=
  if startswith sub s then Some 0
  else match s with
       | EmptyString => None
       | String _ s' => option_map S (find_nat sub s')
       end.

(** [s.find(sub)]: the offset of the first occurrence, or -1. *)
Definition find (sub s : string) : Z :=
  match find_nat sub s with
  | Some n => Z.of_nat n
  | None => (-1)%Z
  end.

(** [sub in s]. *)
Definition contains (sub s : string) : bool :=
  match find_nat sub s with
  | Some _ => true
  | None => false
  end.

(** [s[:n]] and [s[n:]] for an offset [n >= 0]. *)
Fixpoint take (n : nat) (s : string) : string :=
  match n, s with
  | S k, String c s' => String c (take k s')
  | _, _ => EmptyString
  end.

Fixpoint drop (n : nat) (s : string) : string :=
  match n, s with
  | S k, String _ s' => drop k s'
  | _, _ => s
  end.

Definition slice_to (i : Z) (s : string) : string := take (Z.to_nat i) s.
Definition slice_from (i : Z) (s : string) : string := drop (Z.to_nat i) s.

(** [s.split(sep, 1)]: one element when [sep] does not occur, else the text
    before the first occurrence and the text after it. *)
Definition split1 (sep s : string) : list string :=
  match find_nat sep s with
  | Some n => [take n s; drop (n + String.length sep) s]
  | None => [s]
  end.

(** Indexing a list of strings; out of range is Python's [IndexError]. *)
Definition item (l : list string) (i : nat) : option string := nth_error l i.

(** [s.split(sep, 1)[0]], which always exists. *)
Definition split1_head (sep s : string) : string :=
  match find_nat sep s with
  | Some n => take n s
  | None => s
  end.

(** [s.replace(old, new)] for a non-empty [old]: occurrences are replaced
    from left to right and do not overlap.  [skip] counts the characters of
    a replaced occurrence still to be passed over. *)
Fixpoint replace_go (old new : string) (skip : nat) (s : string) : string :=
  match s with
  | EmptyString => EmptyString
  | String c s' =>
      match skip with
      | S k => replace_go old new k s'
      | O =>
          if startswith old s
          then new ++ replace_go old new (String.length old - 1) s'
          else String c (replace_go old new 0 s')
      end
  end.

Definition replace (old new s : string) : string := replace_go old new 0 s.

(** Truthiness of a string: [bool(s)]. *)
Definition nonempty (s : string) : bool :=
  match s with
  | EmptyString => false
  | String _ _ => true
  end.

(** Characters for which [str.isspace] holds, which are also the ones the
    regular expression class [\s] matches on [str] patterns. *)
Definition is_space (c : ascii) : bool :=
  let n := nat_of_ascii c in
  (((9 <=? n) && (n <=? 13)) || ((28 <=? n) && (n <=? 32))
   || (n =? 133) || (n =? 160))%nat.

(** Removal of a leading and of a trailing run of characters satisfying [p]. *)
Fixpoint lstrip_by (p : ascii -> bool) (s : string) : string :=
  match s with
  | EmptyString => EmptyString
  | String c s' => if p c then lstrip_by p s' else s
  end.

Fixpoint rstrip_by (p : ascii -> bool) (s : string) : string :=
  match s with
  | EmptyString => EmptyString
  | String c s' =>
      match rstrip_by p s' with
      | EmptyString => if p c then EmptyString else String c EmptyString
      | r => String c r
      end
  end.

(** [s.strip()]. *)
Definition strip (s : string) : string := rstrip_by is_space (lstrip_by is_space s).

(** [s.rstrip(chars)] for a one-character [chars]. *)
Definition rstrip_char (c : ascii) (s : string) : string := rstrip_by (Ascii.eqb c) s.

(** [re.sub(r"\s+", rep, s)]: each maximal run of whitespace becomes one
    [rep].  [in_run] tells that the previous character was whitespace. *)
Fixpoint sub_ws_go (rep : string) (in_run : bool) (s : string) : string :=
  match s with
  | EmptyString => EmptyString
  | String c s' =>
      if is_space c
      then (if in_run then sub_ws_go rep true s' else rep ++ sub_ws_go rep true s')
      else String c (sub_ws_go rep false s')
  end.

Definition sub_ws (rep s : string) : string := sub_ws_go rep false s.

(** [str(n)] for a non-negative integer. *)
Definition str_of_nat (n : nat) : string := NilEmpty.string_of_uint (Nat.to_uint n).

Definition str_of_Z (z : Z) : string := NilEmpty.string_of_int (Z.to_int z).

End PyStr.
Import PyStr.

(** ** Exceptions, dictionaries and the collaborators *)

(** The result of a call that may raise: a value, or the text of the
    exception. *)
Inductive outcome (A : Type) : Type :=
| Returns (a : A)
| Raises (e : string).
Arguments Returns {A} a.
Arguments Raises {A} e.

(** A Python [dict] from [str] to [str], in insertion order. *)
Definition dict := list (string * string).

(** [d.get(k)]. *)
Fixpoint dict_get (k : string) (d : dict) : option string :=
  match d with
  | [] => None
  | (k', v) :: d' => if String.eqb k' k then Some v else dict_get k d'
  end.

(** [k in d]. *)
Definition dict_mem (k : string) (d : dict) : bool :=
  match dict_get k d with
  | Some _ => true
  | None => false
  end.

(** [d[k] = v]: the value of an existing key is replaced where it stands, a
    new key is appended. *)
Fixpoint dict_set (k v : string) (d : dict) : dict :=
  match d with
  | [] => [(k, v)]
  | (k', v') :: d' =>
      if String.eqb k' k then (k', v) :: d' else (k', v') :: dict_set k v d'
  end.

(** [d.keys()]. *)
Definition dict_keys (d : dict) : list string := map fst d.

(** What the index builder reads of the parsed navigation page: the
    elements returned by [soup.find_all("div", attrs={"pageid": True})],
    each with its [pageid] attribute, the first descendant
    [div.toc--row] if any, the first [a] below that row if any, and that
    anchor's [href] attribute if any. *)
Record anchor : Type := { a_href : option string }.
Record toc_row : Type := { row_a : option anchor }.
Record nav_div : Type := { div_pageid : string; div_toc_row : option toc_row }.

(** An HTTP response as the builder uses it: the status, the
    [Content-Type] header if present, and the result of [resp.read()]. *)
Record response : Type := {
  status : Z;
  content_type_header : option string;
  read : outcome string
}.

(** The collaborators.  [urlopen n] is the outcome of the request issued
    when [n] requests have been issued before it in this process;
    [decode enc body] is [body.decode(enc, errors="replace")];
    [find_pageid_divs html] is the parse of [html] followed by [find_all];
    [get_close_matches k candidates n] is difflib's function with its
    cutoff fixed at 0.6. *)
Record Env : Type := {
  bs4_present : bool;
  urlopen : nat -> outcome response;
  decode : string -> string -> outcome string;
  find_pageid_divs : string -> outcome (list nav_div);
  urljoin : string -> string -> outcome string;
  difflib_present : bool;
  get_close_matches : string -> list string -> nat -> outcome (list string)
}.

(** The module globals, with the number of requests issued so far and
    the lines printed so far. *)
Record world : Type := {
  _NAV_MAP : option dict;
  _NAV_FETCH_FAILED : bool;
  requests : nat;
  stdout : list string
}.

Definition initial_world : world :=
  {| _NAV_MAP := None; _NAV_FETCH_FAILED := false; requests := 0; stdout := [] |}.

Definition print (line : string) (w : world) : world :=
  {| _NAV_MAP := _NAV_MAP w; _NAV_FETCH_FAILED := _NAV_FETCH_FAILED w;
     requests := requests w; stdout := stdout w ++ [line] |}.

Definition set_fetch_failed (w : world) : world :=
  {| _NAV_MAP := _NAV_MAP w; _NAV_FETCH_FAILED := true;
     requests := requests w; stdout := stdout w |}.

Definition set_nav_map (m : dict) (w : world) : world :=
  {| _NAV_MAP := Some m; _NAV_FETCH_FAILED := _NAV_FETCH_FAILED w;
     requests := requests w; stdout := stdout w |}.

Definition count_request (w : world) : world :=
  {| _NAV_MAP := _NAV_MAP w; _NAV_FETCH_FAILED := _NAV_FETCH_FAILED w;
     requests := S (requests w); stdout := stdout w |}.

(** ** The index builder *)

Definition NAV_URL : string := "https://api.koog.ai/navigation.html".
Definition BASE_URL : string := "https://api.koog.ai/".

(** The dictionary under construction, with the assignments
    [result[k] = v] executed so far (a trace kept for the proofs). *)
Record index_state : Type := {
  result : dict;
  writes : list (string * string)
}.

Definition empty_index : index_state := {| result := []; writes := [] |}.

(** The statement [result[k] = v]. *)
Definition setitem (k v : string) (b : index_state) : index_state :=
  {| result := dict_set k v (result b); writes := writes b ++ [(k, v)] |}.

(** The encoding named by a [Content-Type] value, "utf-8" by default. *)
Definition charset_of (content_type : string) : string :=
  if contains "charset=" content_type then
    match item (split1 "charset=" content_type) 1 with
    | Some rest => strip (split1_head ";" rest)
    | None => "utf-8"
    end
  else "utf-8".

(** What the first [try] block of the builder ends with: the decoded
    page, or the warning to print. *)
Inductive fetched : Type :=
| Fetched (html : string)
| NotFetched (warning : string).

Section Builder.

Variable E : Env.

(** Lines 77-81: the href resolved against the navigation page's URL, or
    the raw href when the resolution raises. *)
Definition normalize_href (href : string) : string :=
  match urljoin E NAV_URL href with
  | Returns u => u
  | Raises _ => href
  end.

(** Lines 95-105: the trimmed form of a key that contains "//". *)
Definition trimmed_of (key : string) : string :=
  let idx := find "//" key in
  let before := slice_to idx key in
  let after := slice_from (idx + 2) key in
  let next_sep := find "/" after in
  let token_after := if Z.eqb next_sep (-1) then after else slice_to next_sep after in
  if nonempty token_after then before ++ "//" ++ token_after
  else rstrip_char "/" before.

(** Lines 83-114: the key variants stored for one entry. *)
Definition store_variants (pageid key normalized_href : string)
    (b : index_state) : index_state :=
  let b :=
    if negb (dict_mem key (result b)) then setitem key normalized_href b else b in
  let b :=
    if contains "///" pageid then
      let dotted_key := replace "/" "." key in
      if negb (dict_mem dotted_key (result b))
      then setitem dotted_key normalized_href b else b
    else b in
  if contains "//" key then
    let trimmed := trimmed_of key in
    let b :=
      if nonempty trimmed && negb (dict_mem trimmed (result b))
      then setitem trimmed normalized_href b else b in
    if nonempty trimmed then
      let dotted_trimmed := replace "/" "." (replace "//" "." trimmed) in
      if negb (dict_mem dotted_trimmed (result b))
      then setitem dotted_trimmed normalized_href b else b
    else b
  else b.

(** Lines 62-114: the body of the loop over the elements. *)
Definition process_div (b : index_state) (div : nav_div) : index_state :=
  let pageid := div_pageid div in
  if negb (nonempty pageid) then b else
  let key := split1_head "///" pageid in
  match div_toc_row div with
  | None => b
  | Some row =>
      match row_a row with
      | None => b
      | Some a =>
          match a_href a with
          | None => b
          | Some href =>
              if negb (nonempty href) then b
              else store_variants pageid key (normalize_href href) b
          end
      end
  end.

Definition build_from (b : index_state) (divs : list nav_div) : index_state :=
  fold_left process_div divs b.

Definition build_index (divs : list nav_div) : index_state :=
  build_from empty_index divs.

(** Lines 39-57: the request, the status check and the decoding.  Any
    exception in this block, and a status outside 200-299, ends the build
    with one warning line. *)
Definition fetch_navigation (w : world) : fetched * world :=
  let n := requests w in
  let w := count_request w in
  match urlopen E n with
  | Raises e => (NotFetched ("Warning: Exception fetching navigation: " ++ e), w)
  | Returns resp =>
      if negb (Z.leb 200 (status resp) && Z.ltb (status resp) 300) then
        (NotFetched ("Warning: Failed to fetch navigation from " ++ NAV_URL
                     ++ ": HTTP " ++ str_of_Z (status resp)), w)
      else
        let content_type :=
          match content_type_header resp with Some h => h | None => "" end in
        let encoding := charset_of content_type in
        match read resp with
        | Raises e => (NotFetched ("Warning: Exception fetching navigation: " ++ e), w)
        | Returns body =>
            match decode E encoding body with
            | Raises e =>
                (NotFetched ("Warning: Exception fetching navigation: " ++ e), w)
            | Returns html => (Fetched html, w)
            end
        end
  end.

(** [_build_navigation_map()].  The timeout only reaches the transport,
    whose outcome is [urlopen E]. *)
Definition _build_navigation_map (w : world) : option dict * world :=
  match _NAV_MAP w with
  | Some m => (Some m, w)
  | None =>
      if _NAV_FETCH_FAILED w then (None, w)
      else if negb (bs4_present E) then
        (None,
         print "Warning: BeautifulSoup (bs4) not available; API link processing skipped."
           (set_fetch_failed w))
      else
        match fetch_navigation w with
        | (NotFetched line, w) => (None, print line (set_fetch_failed w))
        | (Fetched html, w) =>
            match find_pageid_divs E html with
            | Raises e =>
                (None,
                 print ("Warning: Exception parsing navigation HTML: " ++ e)
                   (set_fetch_failed w))
            | Returns divs =>
                let m := result (build_index divs) in
                (Some m,
                 print ("Info: API navigation loaded with "
                        ++ str_of_nat (List.length m) ++ " entries.")
                   (set_nav_map m w))
            end
        end
  end.

End Builder.

(** The guarded assignment the loop body repeats:
    [if k not in result: result[k] = v]. *)
Definition store_new (k v : string) (b : index_state) : index_state :=
  if negb (dict_mem k (result b)) then setitem k v b else b.

(** The dictionary under construction holds exactly the assignments
    executed, none of them on a key assigned before. *)
Definition written_once (b : index_state) : Prop :=
  result b = writes b /\ NoDup (map fst (writes b)).

(** [b'] keeps every binding of [b], and binds to [u] the keys it adds. *)
Definition extends_with (u : string) (b b' : index_state) : Prop :=
  (forall k v, dict_get k (result b) = Some v -> dict_get k (result b') = Some v)
  /\ (forall k, dict_get k (result b) = None ->
               dict_get k (result b') = None \/ dict_get k (result b') = Some u)
  /\ (written_once b -> written_once b').

(** ** The link rewriter *)

(** The longest prefix of [s] free of [stop], and what follows it. *)
Fixpoint span_not (stop : ascii) (s : string) : string * string :=
  match s with
  | EmptyString => (EmptyString, EmptyString)
  | String c s' =>
      if Ascii.eqb c stop then (EmptyString, s)
      else let (run, rest) := span_not stop s' in (String c run, rest)
  end.

(** A match of [\[([^\]]+)\]\((api:[^\)]+)\)] starting at the head of [s]:
    groups 1 and 2 and the text after the match.  Each negated class is
    followed by the character it excludes, so the greedy run up to the
    first such character is the only one that can match. *)
Definition match_at (s : string) : option (string * string * string) :=
  match s with
  | EmptyString => None
  | String c s1 =>
      if Ascii.eqb c "[" then
        let (link_text, r1) := span_not "]" s1 in
        if nonempty link_text && startswith "](api:" r1 then
          let (tail, r2) := span_not ")" (drop 6 r1) in
          if nonempty tail && startswith ")" r2
          then Some (link_text, "api:" ++ tail, drop 1 r2)
          else None
        else None
      else None
  end.
Arguments match_at s : simpl never.

(** [match.group(0)]. *)
Definition group0 (link_text target : string) : string :=
  "[" ++ link_text ++ "](" ++ target ++ ")".

(** The text cut as [pattern.sub] scans it: the leftmost matches, which do
    not overlap, and the characters between them. *)
Inductive token : Type :=
| TChar (c : ascii)
| TLink (link_text target : string).

Definition inspect {A : Type} (a : A) : {b : A | a = b} := exist _ a eq_refl.

Equations? scan (s : string) : list token by wf (String.length s) lt :=
  scan EmptyString := [];
  scan (String c s') with inspect (match_at (String c s')) => {
    | exist _ (Some (link_text, target, rest)) Hm := TLink link_text target :: scan rest;
    | exist _ None _ := TChar c :: scan s' }.
Proof.
  assert (Hspan : forall stop t,
             String.length (snd (span_not stop t)) <= String.length t).
  { intros stop t. induction t as [|a t IH]; simpl; [lia|].
    destruct (Ascii.eqb a stop); simpl; [lia|].
    destruct (span_not stop t); simpl in *; lia. }
  assert (Hdrop : forall n t, String.length (drop n t) = String.length t - n).
  { intros n. induction n as [|n IH]; intros [|a t]; simpl; try lia. apply IH. }
  assert (Hpre : forall p t,
             startswith p t = true -> String.length p <= String.length t).
  { intros p. induction p as [|a p IH]; intros [|b t]; simpl;
      try lia; try discriminate.
    intros H. apply andb_prop in H as [_ H]. apply IH in H. lia. }
  unfold match_at in Hm.
  destruct (Ascii.eqb c "["); [|discriminate].
  pose proof (Hspan "]"%char s') as H1.
  destruct (span_not "]" s') as [lt1 r1]; cbn [snd] in H1.
  destruct (nonempty lt1 && startswith "](api:" r1) eqn:Hg; [|discriminate].
  apply andb_prop in Hg as [_ Hp].
  pose proof (Hspan ")"%char (drop 6 r1)) as H2.
  destruct (span_not ")" (drop 6 r1)) as [tl r2]; cbn [snd] in H2.
  destruct (nonempty tl && startswith ")" r2); [|discriminate].
  assert (Hr : rest = drop 1 r2) by congruence. subst rest.
  rewrite Hdrop. rewrite Hdrop in H2.
  apply Hpre in Hp. cbn [String.length] in *. lia.
Qed.

(** The page object handed over by MkDocs, as far as [repl] reads it:
    [page.file] and its [src_path], either of which may be missing. *)
Record file_info : Type := { src_path : option string }.
Record page_info : Type := { file : option file_info }.

(** [dict.fromkeys(l)] read back as a list: the first occurrence of each
    element, in order. *)
Fixpoint fromkeys_go (seen l : list string) : list string :=
  match l with
  | [] => []
  | x :: l' =>
      if existsb (String.eqb x) seen then fromkeys_go seen l'
      else x :: fromkeys_go (x :: seen) l'
  end.

Definition fromkeys (l : list string) : list string := fromkeys_go [] l.

Definition print_all (lines : list string) (w : world) : world :=
  fold_left (fun w line => print line w) lines w.

(** Lines 192-203: the variant forms hinted at for an unresolved key. *)
Definition variant_hints (key : string) : outcome (list string) :=
  let dotted_variant := replace "/" "." (replace "//" "." key) in
  let hints :=
    if negb (String.eqb dotted_variant key) then [dotted_variant] else [] in
  let slash_variant := replace "." "/" (replace "::" "::" key) in
  if negb (String.eqb slash_variant key) && contains "::" key then
    match split1 "::" key with
    | [prefix; rest] =>
        let slash_variant := prefix ++ "::" ++ replace "." "/" rest in
        if negb (String.eqb slash_variant key)
        then Returns (hints ++ [slash_variant])%list else Returns hints
    | _ => Raises "ValueError: not enough values to unpack"
    end
  else Returns hints.

Section Rewriter.

Variable E : Env.

Definition _extract_project_prefix (k : string) : string :=
  if contains "::" k then split1_head "::" k else "".

(** The candidate keys handed to difflib (lines 154-157). *)
Definition candidates_for (nav_map : dict) (k : string) : list string :=
  let prefix := _extract_project_prefix k in
  let candidates :=
    filter (fun key => nonempty prefix && startswith (prefix ++ "::") key)
      (dict_keys nav_map) in
  match candidates with
  | [] => dict_keys nav_map
  | _ :: _ => candidates
  end.

Definition _suggest_keys (nav_map : dict) (k : string) (limit : nat) : list string :=
  if negb (difflib_present E) then []
  else
    match get_close_matches E k (candidates_for nav_map k) limit with
    | Returns l => l
    | Raises _ => []
    end.

(** Lines 184-188. *)
Definition page_path_of (page : page_info) : string :=
  match file page with
  | Some f => match src_path f with Some p => p | None => "<unknown>" end
  | None => "<unknown>"
  end.

(** The lookup key of a target (line 173). *)
Definition lookup_key (target : string) : string :=
  strip (drop (String.length "api:") target).

(** Lines 184-218: what is printed for an unresolved key. *)
Definition report_miss (page : page_info) (nav_map : dict) (key : string)
    (w : world) : outcome unit * world :=
  let page_path := page_path_of page in
  let w := print ("Warning: Unable to resolve API link target '" ++ key
                  ++ "' in '" ++ page_path ++ "'.") w in
  match variant_hints key with
  | Raises e => (Raises e, w)
  | Returns hints =>
      let suggestions := _suggest_keys nav_map key 5 in
      let w :=
        match suggestions with
        | [] => w
        | _ :: _ =>
            print_all (map (fun s => "    - " ++ s) suggestions)
              (print "  Did you mean one of:" w)
        end in
      let w :=
        match hints with
        | [] => w
        | _ :: _ =>
            print_all (map (fun v => "    - " ++ v) (fromkeys hints))
              (print "  Try variant forms (based on separators):" w)
        end in
      (Returns tt, w)
  end.

(** [repl(match)], given groups 1 and 2 of the match. *)
Definition repl (page : page_info) (link_text target : string) (w : world)
    : outcome string * world :=
  if negb (startswith "api:" target) then (Returns (group0 link_text target), w)
  else
    let key := lookup_key target in
    if negb (nonempty key) then (Returns (group0 link_text target), w)
    else
      let (nav_map, w) := _build_navigation_map E w in
      match nav_map with
      | None => (Returns (group0 link_text target), w)
      | Some [] => (Returns (group0 link_text target), w)
      | Some ((_ :: _) as m) =>
          match dict_get key m with
          | Some (String _ _ as href) =>
              let display_text := sub_ws "-" (strip link_text) in
              match urljoin E BASE_URL href with
              | Raises e => (Raises e, w)
              | Returns resolved_href =>
                  (Returns ("[" ++ display_text ++ "](" ++ resolved_href ++ ")"), w)
              end
          | _ =>
              match report_miss page m key w with
              | (Raises e, w) => (Raises e, w)
              | (Returns _, w) => (Returns (group0 link_text target), w)
              end
          end
      end.

(** [pattern.sub(repl, markdown)] over the scanned text: [repl] runs on
    the matches from left to right; an exception it raises ends the call. *)
Fixpoint sub_tokens (page : page_info) (ts : list token) (w : world)
    : outcome string * world :=
  match ts with
  | [] => (Returns "", w)
  | TChar c :: ts' =>
      match sub_tokens page ts' w with
      | (Returns out, w') => (Returns (String c out), w')
      | (Raises e, w') => (Raises e, w')
      end
  | TLink link_text target :: ts' =>
      match repl page link_text target w with
      | (Raises e, w') => (Raises e, w')
      | (Returns r, w') =>
          match sub_tokens page ts' w' with
          | (Returns out, w'') => (Returns (r ++ out), w'')
          | (Raises e, w'') => (Raises e, w'')
          end
      end
  end.

(** [on_page_markdown(markdown, page, config, files)]; [config] and
    [files] are not read. *)
Definition on_page_markdown (markdown : string) (page : page_info) (w : world)
    : outcome string * world :=
  sub_tokens page (scan markdown) w.

End Rewriter.

(** ** The page set of a build *)

(** The hook run over the pages of a build, one after the other, whatever
    each call returns. *)
Definition build_pages (E : Env) (pages : list (string * page_info)) (w : world)
    : world :=
  fold_left (fun w p => snd (on_page_markdown E (fst p) (snd p) w)) pages w.

(** ** Vocabulary of the statements *)

(** The text a token stands for, and the text of a token list. *)
Definition token_text (t : token) : string :=
  match t with
  | TChar c => String c EmptyString
  | TLink link_text target => group0 link_text target
  end.

Fixpoint text_of (ts : list token) : string :=
  match ts with
  | [] => EmptyString
  | t :: ts' => token_text t ++ text_of ts'
  end.

(** Some character of [s] satisfies [p]. *)
Fixpoint any_char (p : ascii -> bool) (s : string) : bool :=
  match s with
  | EmptyString => false
  | String c s' => p c || any_char p s'
  end.

(** A build attempt has completed: the index is cached or the failure is
    flagged. *)
Definition settled (w : world) : bool :=
  match _NAV_MAP w with
  | Some _ => true
  | None => _NAV_FETCH_FAILED w
  end.

(** [w'] differs from [w] at most by lines printed after those of [w]. *)
Definition printed_only (w w' : world) : Prop :=
  _NAV_MAP w' = _NAV_MAP w
  /\ _NAV_FETCH_FAILED w' = _NAV_FETCH_FAILED w
  /\ requests w' = requests w
  /\ exists lines, stdout w' = (stdout w ++ lines)%list.


Definition key_as_claimed (target : string) : string :=
  drop (String.length "api:") target.


(** The requests a world can still come to: those issued, and one more
    as long as no build attempt has completed. *)
Definition request_cap (w : world) : nat :=
  requests w + (if settled w then 0 else 1).

(** The href the loop body keeps of an element, when it skips none of its
    tests (lines 63-76). *)
Definition link_of (div : nav_div) : option string :=
  if nonempty (div_pageid div) then
    match div_toc_row div with
    | Some {| row_a := Some {| a_href := Some href |} |} =>
        if nonempty href then Some href else None
    | _ => None
    end
  else None.

(** [k] is one of the keys the loop body may store for [pageid]
    (lines 83-114). *)
Definition variant_of (pageid k : string) : Prop :=
  let key := split1_head "///" pageid in
  k = key
  \/ (contains "///" pageid = true /\ k = replace "/" "." key)
  \/ (contains "//" key = true /\ nonempty (trimmed_of key) = true
      /\ (k = trimmed_of key
          \/ k = replace "/" "." (replace "//" "." (trimmed_of key)))).

(** ** A concrete site for the examples *)

Module Samples.

Definition is_scheme_char (c : ascii) : bool :=
  let n := nat_of_ascii c in
  (((97 <=? n) && (n <=? 122)) || ((65 <=? n) && (n <=? 90))
   || ((48 <=? n) && (n <=? 57)) || (n =? 43) || (n =? 45) || (n =? 46))%nat.

Definition is_alpha (c : ascii) : bool :=
  let n := nat_of_ascii c in
  (((97 <=? n) && (n <=? 122)) || ((65 <=? n) && (n <=? 90)))%nat.

(** The scheme of a reference, when it has one. *)
Definition scheme_of (url : string) : option string :=
  match find_nat ":" url with
  | Some (S n) =>
      let sch := take (S n) url in
      match sch with
      | String c _ =>
          if is_alpha c && negb (any_char (fun x => negb (is_scheme_char x)) sch)
          then Some sch else None
      | EmptyString => None
      end
  | _ => None
  end.

(** The text up to and including the last "/". *)
Fixpoint directory_of (s : string) : string :=
  match s with
  | EmptyString => EmptyString
  | String c s' =>
      let r := directory_of s' in
      if nonempty r || Ascii.eqb c "/" then String c r else EmptyString
  end.

(** The authority of a reference that starts with "//". *)
Definition netloc_of (url : string) : string :=
  let after := drop 2 url in
  fst (span_not "#" (fst (span_not "?" (fst (span_not "/" after))))).

(** What [urllib.parse.urljoin] answers on the references used in the
    examples of this file, for an https base: an empty reference gives the
    base; a reference whose authority has an unbalanced bracket raises
    [ValueError]; a reference with a scheme of its own other than https,
    or with the https scheme and an authority, is returned as it is; a
    relative path made of plain segments is appended to the directory of
    the base.  Other shapes of reference (absolute paths, dot segments,
    queries, fragments) are not used. *)
Definition urljoin_on_examples (base url : string) : outcome string :=
  if negb (nonempty url) then Returns base
  else if startswith "//" url
          && xorb (contains "[" (netloc_of url)) (contains "]" (netloc_of url))
  then Raises "Invalid IPv6 URL"
  else
    match scheme_of url with
    | Some sch =>
        if negb (String.eqb sch "https") then Returns url
        else if startswith "//" (drop 6 url) then Returns url
        else Returns (directory_of base ++ drop 6 url)
    | None => Returns (directory_of base ++ url)
    end.

(** A matcher honouring the interface of [difflib.get_close_matches]: it
    returns at most [n] candidates, here the ones equal to the key. *)
Definition exact_matches (k : string) (candidates : list string) (n : nat)
    : outcome (list string) :=
  Returns (firstn n (filter (String.eqb k) candidates)).

(** A site whose navigation page parses to [divs], served with status 200. *)
Definition site (divs : list nav_div) : Env :=
  {| bs4_present := true;
     urlopen := fun _ =>
       Returns {| status := 200;
                  content_type_header := Some "text/html; charset=utf-8";
                  read := Returns "<html/>" |};
     decode := fun _ body => Returns body;
     find_pageid_divs := fun _ => Returns divs;
     urljoin := urljoin_on_examples;
     difflib_present := true;
     get_close_matches := exact_matches |}.


(** A build environment without the HTML parser installed. *)
Definition site_without_bs4 (divs : list nav_div) : Env :=
  {| bs4_present := false;
     urlopen := fun _ =>
       Returns {| status := 200;
                  content_type_header := Some "text/html";
                  read := Returns "<html/>" |};
     decode := fun _ body => Returns body;
     find_pageid_divs := fun _ => Returns divs;
     urljoin := urljoin_on_examples;
     difflib_present := true;
     get_close_matches := exact_matches |}.



(** A site that cannot be reached. *)
Definition unreachable_site : Env :=
  {| bs4_present := true;
     urlopen := fun _ => Raises "<urlopen error timed out>";
     decode := fun _ body => Returns body;
     find_pageid_divs := fun _ => Returns [];
     urljoin := urljoin_on_examples;
     difflib_present := true;
     get_close_matches := exact_matches |}.

(** [<div pageid=...><div class="toc--row"><a href=...>]. *)
Definition entry (pageid href : string) : nav_div :=
  {| div_pageid := pageid;
     div_toc_row := Some {| row_a := Some {| a_href := Some href |} |} |}.


Definition guide_page : page_info :=
  {| file := Some {| src_path := Some "guide/index.md" |} |}.

(** A world in which the index [m] has been built. *)
Definition built (m : dict) : world :=
  {| _NAV_MAP := Some m; _NAV_FETCH_FAILED := false; requests := 1; stdout := [] |}.

End Samples.
Import Samples.




(** * Facts about the string primitives *)

Section StringFacts.

Lemma append_nil_r s : s ++ "" = s.
Proof. induction s as [|c s IH]; simpl; congruence. Qed.

Lemma append_assoc a b c : (a ++ b) ++ c = a ++ b ++ c.
Proof. induction a as [|x a IH]; simpl; congruence. Qed.

Lemma length_append a b :
  String.length (a ++ b) = String.length a + String.length b.
Proof. induction a as [|x a IH]; simpl; congruence. Qed.

Lemma length_take n s : String.length (take n s) = Nat.min n (String.length s).
Proof.
  revert s; induction n as [|n IH]; intros [|c s]; simpl; try reflexivity.
  now rewrite IH.
Qed.

Lemma take_drop n s : take n s ++ drop n s = s.
Proof.
  revert s; induction n as [|n IH]; intros [|c s]; simpl; try reflexivity.
  now rewrite IH.
Qed.

Lemma take_app a b : take (String.length a) (a ++ b) = a.
Proof. induction a as [|x a IH]; simpl; [now destruct b | congruence]. Qed.

Lemma drop_app a b : drop (String.length a) (a ++ b) = b.
Proof. induction a as [|x a IH]; simpl; [reflexivity | assumption]. Qed.

Lemma drop_add n m s : drop (n + m) s = drop m (drop n s).
Proof.
  revert s; induction n as [|n IH]; intros s; simpl; [reflexivity|].
  destruct s as [|c s]; [now destruct m | apply IH].
Qed.

Lemma find_nat_unfold sub s :
  find_nat sub s =
  if startswith sub s then Some 0
  else match s with
       | EmptyString => None
       | String _ s' => option_map S (find_nat sub s')
       end.
Proof. destruct s; reflexivity. Qed.

Lemma startswith_app p r : startswith p (p ++ r) = true.
Proof.
  induction p as [|a p IH]; simpl; [reflexivity|].
  now rewrite Ascii.eqb_refl, IH.
Qed.

Lemma startswith_split p s :
  startswith p s = true -> s = p ++ drop (String.length p) s.
Proof.
  revert s; induction p as [|a p IH]; intros s H; [reflexivity|].
  destruct s as [|b s]; [discriminate|]. simpl in H.
  apply andb_prop in H as [Hab H]. apply Ascii.eqb_eq in Hab. subst b.
  simpl. f_equal. now apply IH.
Qed.

(** Text beyond the length of the prefix tested does not matter. *)
Lemma startswith_app_irrel p x z :
  String.length p <= String.length x ->
  startswith p (x ++ z) = startswith p x.
Proof.
  revert x; induction p as [|a p IH]; intros x H; [reflexivity|].
  destruct x as [|b x]; simpl in *; [lia|].
  rewrite IH by lia. reflexivity.
Qed.

Lemma contains_cons_false sub c s :
  contains sub (String c s) = false ->
  startswith sub (String c s) = false /\ contains sub s = false.
Proof.
  unfold contains. rewrite (find_nat_unfold sub (String c s)).
  destruct (startswith sub (String c s)); [discriminate|].
  destruct (find_nat sub s); [discriminate|]. auto.
Qed.

Lemma contains_app_r sub x r :
  contains sub r = true -> contains sub (x ++ r) = true.
Proof.
  unfold contains. induction x as [|c x IH]; intros H; [assumption|].
  specialize (IH H). cbn [append].
  rewrite (find_nat_unfold sub (String c (x ++ r))).
  destruct (startswith sub (String c (x ++ r))); [reflexivity|].
  destruct (find_nat sub (x ++ r)); [reflexivity|discriminate].
Qed.

Lemma contains_startswith sub s : startswith sub s = true -> contains sub s = true.
Proof. unfold contains. rewrite find_nat_unfold. now intros ->. Qed.

(** The first occurrence of [sep] in [A ++ sep ++ R] is the one displayed
    when none begins inside [A]. *)
Lemma find_nat_first sep A R :
  contains sep (A ++ take (String.length sep - 1) sep) = false ->
  find_nat sep (A ++ sep ++ R) = Some (String.length A).
Proof.
  induction A as [|c A IH]; intros H.
  - simpl. rewrite find_nat_unfold, startswith_app. reflexivity.
  - simpl in H. apply contains_cons_false in H as [Hs Hc].
    assert (Hcut : String c (A ++ sep ++ R)
              = String c (A ++ take (String.length sep - 1) sep)
                ++ (drop (String.length sep - 1) sep ++ R)).
    { simpl. f_equal. rewrite append_assoc. f_equal.
      rewrite <- append_assoc, take_drop. reflexivity. }
    assert (Hno : startswith sep (String c (A ++ sep ++ R)) = false).
    { rewrite Hcut, startswith_app_irrel; [exact Hs|].
      simpl. rewrite length_append, length_take. lia. }
    cbn [append String.length].
    rewrite (find_nat_unfold sep (String c (A ++ sep ++ R))), Hno, (IH Hc).
    reflexivity.
Qed.

Lemma contains_first sep A R :
  contains sep (A ++ sep ++ R) = true.
Proof. apply contains_app_r, contains_startswith, startswith_app. Qed.

Lemma split1_head_first sep A R :
  contains sep (A ++ take (String.length sep - 1) sep) = false ->
  split1_head sep (A ++ sep ++ R) = A.
Proof.
  intros H. unfold split1_head. rewrite (find_nat_first _ _ _ H). apply take_app.
Qed.

Lemma contains_char_cons c a s :
  contains (String c "") (String a s)
  = Ascii.eqb c a || contains (String c "") s.
Proof.
  unfold contains. rewrite find_nat_unfold. simpl.
  rewrite andb_true_r. destruct (Ascii.eqb c a); [reflexivity|].
  now destruct (find_nat (String c "") s).
Qed.

Lemma contains_char_app c x y :
  contains (String c "") (x ++ y)
  = contains (String c "") x || contains (String c "") y.
Proof.
  induction x as [|a x IH]; [reflexivity|].
  simpl. rewrite !contains_char_cons, IH. apply orb_assoc.
Qed.

(** Replacing a one-character [old] works character by character. *)
Lemma replace_char_cons c new a s :
  replace (String c "") new (String a s)
  = (if Ascii.eqb c a then new else String a "") ++ replace (String c "") new s.
Proof.
  unfold replace. simpl. rewrite andb_true_r. now destruct (Ascii.eqb c a).
Qed.

Lemma replace_char_app c new x y :
  replace (String c "") new (x ++ y)
  = replace (String c "") new x ++ replace (String c "") new y.
Proof.
  induction x as [|a x IH]; [reflexivity|].
  simpl. rewrite !replace_char_cons, IH. symmetry. apply append_assoc.
Qed.

Lemma replace_char_absent c new s :
  contains (String c "") s = false -> replace (String c "") new s = s.
Proof.
  induction s as [|a s IH]; [reflexivity|].
  rewrite contains_char_cons, replace_char_cons. intros H.
  apply orb_false_elim in H as [-> H]. simpl. f_equal. now apply IH.
Qed.

Lemma replace_slashes_absent s :
  contains "/" s = false -> replace "//" "." s = s.
Proof.
  unfold replace. induction s as [|a s IH]; [reflexivity|].
  rewrite contains_char_cons. intros H. apply orb_false_elim in H as [Ha H].
  cbn [replace_go startswith]. rewrite Ha. cbn [andb]. f_equal. now apply IH.
Qed.

Lemma replace_slashes_first B S :
  contains "//" (B ++ "/") = false ->
  replace "//" "." (B ++ "//" ++ S) = B ++ "." ++ replace "//" "." S.
Proof.
  unfold replace. induction B as [|c B IH]; intros H.
  - reflexivity.
  - simpl in H. apply contains_cons_false in H as [Hs Hc].
    assert (Hno : startswith "//" (String c (B ++ "//" ++ S)) = false).
    { change (String c (B ++ "//" ++ S))
        with (String c (B ++ String "/" (String "/" S))).
      replace (String c (B ++ String "/" (String "/" S)))
        with (String c (B ++ "/") ++ String "/" S).
      - rewrite startswith_app_irrel; [exact Hs|].
        simpl. rewrite length_append. simpl. lia.
      - simpl. f_equal. rewrite append_assoc. reflexivity. }
    specialize (IH Hc). cbn [append replace_go] in *. rewrite Hno.
    f_equal. exact IH.
Qed.

End StringFacts.

(** * Facts about dictionaries *)

Section DictFacts.

Lemma dict_get_set_same k v d : dict_get k (dict_set k v d) = Some v.
Proof.
  induction d as [|[k' v'] d IH]; simpl.
  - now rewrite String.eqb_refl.
  - destruct (String.eqb k' k) eqn:Hk; simpl; rewrite Hk; [reflexivity|exact IH].
Qed.

Lemma dict_get_set_other k k' v d :
  k <> k' -> dict_get k' (dict_set k v d) = dict_get k' d.
Proof.
  intros Hne. induction d as [|[k0 v0] d IH]; simpl.
  - apply String.eqb_neq in Hne. now rewrite Hne.
  - destruct (String.eqb k0 k) eqn:Hk; simpl.
    + apply String.eqb_eq in Hk. subst k0.
      apply String.eqb_neq in Hne. now rewrite Hne.
    + destruct (String.eqb k0 k'); [reflexivity|exact IH].
Qed.

Lemma dict_set_new k v d :
  dict_get k d = None -> dict_set k v d = (d ++ [(k, v)])%list.
Proof.
  induction d as [|[k0 v0] d IH]; simpl; [reflexivity|].
  destruct (String.eqb k0 k); [discriminate|]. intros H. now rewrite IH.
Qed.

Lemma dict_get_none_keys k d : dict_get k d = None -> ~ In k (dict_keys d).
Proof.
  induction d as [|[k0 v0] d IH]; simpl; [tauto|].
  destruct (String.eqb k0 k) eqn:Hk; [discriminate|].
  apply String.eqb_neq in Hk. intros H [Heq|Hin]; [congruence|now apply IH].
Qed.

Lemma dict_mem_get k d :
  dict_mem k d = true <-> exists v, dict_get k d = Some v.
Proof.
  unfold dict_mem. destruct (dict_get k d) as [v|]; split; intros H;
    try reflexivity; try discriminate; [now exists v | now destruct H].
Qed.

Lemma dict_mem_false k d : dict_mem k d = false <-> dict_get k d = None.
Proof. unfold dict_mem. now destruct (dict_get k d). Qed.

End DictFacts.

(** * The index under construction *)

Section IndexFacts.

Variable E : Env.

Lemma extends_with_refl u b : extends_with u b b.
Proof. unfold extends_with. auto. Qed.

Lemma extends_with_trans u b1 b2 b3 :
  extends_with u b1 b2 -> extends_with u b2 b3 -> extends_with u b1 b3.
Proof.
  intros (K1 & N1 & W1) (K2 & N2 & W2). split; [|split].
  - auto.
  - intros k Hk. destruct (N1 k Hk) as [H|H]; [auto | right; auto].
  - auto.
Qed.

Lemma store_new_extends k u b : extends_with u b (store_new k u b).
Proof.
  unfold store_new. destruct (dict_mem k (result b)) eqn:Hm; simpl;
    [apply extends_with_refl|].
  apply dict_mem_false in Hm. split; [|split]; simpl.
  - intros k' v' H. rewrite dict_get_set_other; [exact H|]. congruence.
  - intros k' H. destruct (String.eqb_spec k k') as [->|Hne].
    + right. apply dict_get_set_same.
    + left. now rewrite dict_get_set_other.
  - intros H. split; simpl.
    { rewrite (dict_set_new _ _ _ Hm). destruct H as [H _]. now rewrite H. }
    destruct H as [Hr Hn]. rewrite map_app. simpl.
    rewrite <- Hr in *.
    assert (Hnotin : ~ In k (map fst (result b))) by now apply dict_get_none_keys.
    clear Hm Hr. induction (map fst (result b)) as [|x l IHl]; simpl.
    + constructor; [tauto | constructor].
    + inversion Hn as [|? ? Hx Hl]; subst. constructor.
      * rewrite in_app_iff. simpl. intros [Hin|[Heq|[]]]; [tauto|].
        apply Hnotin. now left.
      * apply IHl; [exact Hl|]. intros Hin. apply Hnotin. now right.
Qed.

Lemma store_new_mem k u b : dict_mem k (result (store_new k u b)) = true.
Proof.
  unfold store_new. destruct (dict_mem k (result b)) eqn:Hm; simpl; [exact Hm|].
  apply dict_mem_get. exists u. apply dict_get_set_same.
Qed.

(** The loop body's stores, written with [store_new]. *)
Lemma store_variants_eq pageid key u b :
  store_variants pageid key u b =
  let b1 := store_new key u b in
  let b2 :=
    if contains "///" pageid then store_new (replace "/" "." key) u b1 else b1 in
  if contains "//" key then
    if nonempty (trimmed_of key)
    then store_new (replace "/" "." (replace "//" "." (trimmed_of key))) u
           (store_new (trimmed_of key) u b2)
    else b2
  else b2.
Proof.
  unfold store_variants, store_new. cbv zeta.
  destruct (contains "//" key); [|reflexivity].
  destruct (nonempty (trimmed_of key)); reflexivity.
Qed.

Lemma extends_with_mem u b b' k :
  extends_with u b b' -> dict_mem k (result b) = true -> dict_mem k (result b') = true.
Proof.
  intros (K & _ & _) H. apply dict_mem_get in H as [v H].
  apply dict_mem_get. exists v. auto.
Qed.

Lemma store_variants_extends pageid key u b :
  extends_with u b (store_variants pageid key u b).
Proof.
  rewrite store_variants_eq. cbv zeta.
  assert (H2 : extends_with u b
                 (if contains "///" pageid
                  then store_new (replace "/" "." key) u (store_new key u b)
                  else store_new key u b)).
  { destruct (contains "///" pageid).
    - eapply extends_with_trans; apply store_new_extends.
    - apply store_new_extends. }
  destruct (contains "//" key); [|exact H2].
  destruct (nonempty (trimmed_of key)); [|exact H2].
  eapply extends_with_trans; [exact H2|].
  eapply extends_with_trans; apply store_new_extends.
Qed.

Lemma store_variants_key pageid key u b :
  dict_mem key (result (store_variants pageid key u b)) = true.
Proof.
  rewrite store_variants_eq. cbv zeta.
  assert (H1 : dict_mem key (result (store_new key u b)) = true)
    by apply store_new_mem.
  assert (H2 : dict_mem key
                 (result (if contains "///" pageid
                          then store_new (replace "/" "." key) u (store_new key u b)
                          else store_new key u b)) = true).
  { destruct (contains "///" pageid); [|exact H1].
    eapply extends_with_mem; [apply store_new_extends|exact H1]. }
  destruct (contains "//" key); [|exact H2].
  destruct (nonempty (trimmed_of key)); [|exact H2].
  eapply extends_with_mem; [apply store_new_extends|].
  eapply extends_with_mem; [apply store_new_extends|exact H2].
Qed.

Lemma store_variants_dotted pageid key u b :
  contains "///" pageid = true ->
  dict_mem (replace "/" "." key) (result (store_variants pageid key u b)) = true.
Proof.
  intros Hp. rewrite store_variants_eq, Hp. cbv zeta.
  pose proof (store_new_mem (replace "/" "." key) u (store_new key u b)) as H2.
  destruct (contains "//" key); [|exact H2].
  destruct (nonempty (trimmed_of key)); [|exact H2].
  eapply extends_with_mem; [apply store_new_extends|].
  eapply extends_with_mem; [apply store_new_extends|exact H2].
Qed.

Lemma store_variants_trimmed pageid key u b :
  contains "//" key = true -> nonempty (trimmed_of key) = true ->
  dict_mem (trimmed_of key) (result (store_variants pageid key u b)) = true
  /\ dict_mem (replace "/" "." (replace "//" "." (trimmed_of key)))
       (result (store_variants pageid key u b)) = true.
Proof.
  intros Hk Ht. rewrite store_variants_eq, Hk, Ht. cbv zeta. split.
  - eapply extends_with_mem; [apply store_new_extends|apply store_new_mem].
  - apply store_new_mem.
Qed.

(** One element of the page either leaves the index alone or stores the
    variants of its key. *)
Lemma process_div_cases b div :
  process_div E b div = b
  \/ exists href,
       div_toc_row div = Some {| row_a := Some {| a_href := Some href |} |}
       /\ nonempty (div_pageid div) = true /\ nonempty href = true
       /\ process_div E b div
          = store_variants (div_pageid div) (split1_head "///" (div_pageid div))
              (normalize_href E href) b.
Proof.
  unfold process_div.
  destruct (nonempty (div_pageid div)) eqn:Hp; cbn [negb]; [|now left].
  destruct (div_toc_row div) as [[[[[href|]]|]]|]; try now left.
  cbn [row_a a_href].
  destruct (nonempty href) eqn:Hh; cbn [negb]; [|now left].
  right. exists href. auto.
Qed.

Lemma process_div_keeps b div k v :
  dict_get k (result b) = Some v ->
  dict_get k (result (process_div E b div)) = Some v.
Proof.
  intros H. destruct (process_div_cases b div) as [->|(href & _ & _ & _ & ->)];
    [exact H|].
  now apply (store_variants_extends _ _ (normalize_href E href) b).
Qed.

Lemma process_div_written_once b div :
  written_once b -> written_once (process_div E b div).
Proof.
  intros H. destruct (process_div_cases b div) as [->|(href & _ & _ & _ & ->)];
    [exact H|].
  now apply (store_variants_extends _ _ (normalize_href E href) b).
Qed.

Lemma build_from_keeps divs b k v :
  dict_get k (result b) = Some v ->
  dict_get k (result (build_from E b divs)) = Some v.
Proof.
  revert b; induction divs as [|d divs IH]; intros b H; [exact H|].
  simpl. apply IH, process_div_keeps, H.
Qed.

Lemma build_from_written_once divs b :
  written_once b -> written_once (build_from E b divs).
Proof.
  revert b; induction divs as [|d divs IH]; intros b H; [exact H|].
  simpl. apply IH, process_div_written_once, H.
Qed.

Lemma build_from_app b pre post :
  build_from E b (pre ++ post) = build_from E (build_from E b pre) post.
Proof. unfold build_from. apply fold_left_app. Qed.

Lemma empty_index_written_once : written_once empty_index.
Proof. split; [reflexivity|constructor]. Qed.

End IndexFacts.

(** * The key variants of an entry *)

Section KeyVariants.

Lemma split1_head_nonempty sep s :
  nonempty (split1_head sep s) = true -> nonempty s = true.
Proof.
  destruct s as [|c s]; [|reflexivity].
  unfold split1_head. now destruct (find_nat sep "") as [[|n]|].
Qed.

(** The trimmed form keeps the text before the first "//" and the first
    segment after it. *)
Lemma trimmed_of_shape B S R :
  contains "//" (B ++ "/") = false ->
  nonempty S = true ->
  contains "/" S = false ->
  R = "" \/ startswith "/" R = true ->
  trimmed_of (B ++ "//" ++ S ++ R) = B ++ "//" ++ S.
Proof.
  intros HB HS HnoS HR. unfold trimmed_of, find, slice_to, slice_from.
  rewrite (find_nat_first "//" B (S ++ R) HB).
  replace (Z.to_nat (Z.of_nat (String.length B) + 2)) with (String.length B + 2) by lia.
  rewrite Nat2Z.id, take_app, drop_add, drop_app.
  change (drop 2 ("//" ++ S ++ R)) with (S ++ R).
  assert (Htok : (if Z.eqb match find_nat "/" (S ++ R) with
                           | Some n => Z.of_nat n
                           | None => (-1)%Z
                           end (-1)
                  then S ++ R
                  else take (Z.to_nat match find_nat "/" (S ++ R) with
                                      | Some n => Z.of_nat n
                                      | None => (-1)%Z
                                      end) (S ++ R)) = S).
  { destruct HR as [->|HR].
    - rewrite append_nil_r. unfold contains in HnoS.
      destruct (find_nat "/" S); [discriminate|]. reflexivity.
    - apply startswith_split in HR. rewrite HR.
      rewrite (find_nat_first "/" S (drop (String.length "/") R))
        by (simpl; now rewrite append_nil_r).
      replace (Z.eqb (Z.of_nat (String.length S)) (-1)) with false
        by (symmetry; apply Z.eqb_neq; lia).
      rewrite Nat2Z.id. apply take_app. }
  rewrite Htok, HS. reflexivity.
Qed.

Lemma dotted_trimmed_shape B S :
  contains "//" (B ++ "/") = false ->
  contains "/" S = false ->
  replace "/" "." (replace "//" "." (B ++ "//" ++ S))
  = replace "/" "." B ++ "." ++ S.
Proof.
  intros HB HS.
  rewrite (replace_slashes_first B S HB), (replace_slashes_absent S HS).
  rewrite replace_char_app. f_equal.
  change ("." ++ S) with (String "." S).
  rewrite replace_char_cons. simpl. f_equal. now apply replace_char_absent.
Qed.

End KeyVariants.

(** * Properties of the index builder *)

Section IndexProperties.

Variable E : Env.

(** What one valid element leaves in the final index. *)
Lemma entry_in_index pre post pageid href k :
  nonempty pageid = true ->
  nonempty href = true ->
  let div := {| div_pageid := pageid;
                div_toc_row := Some {| row_a := Some {| a_href := Some href |} |} |} in
  let key := split1_head "///" pageid in
  let u := normalize_href E href in
  let after := result (store_variants pageid key u (build_index E pre)) in
  let index := result (build_index E (pre ++ div :: post)) in
  dict_mem k after = true ->
  dict_mem k index = true
  /\ (dict_mem k (result (build_index E pre)) = false -> dict_get k index = Some u).
Proof.
  intros Hp Hh div key u after index Hk.
  assert (Hstep : process_div E (build_index E pre) div
                  = store_variants pageid key u (build_index E pre)).
  { unfold process_div, div. cbn [div_pageid div_toc_row row_a a_href].
    rewrite Hp, Hh. reflexivity. }
  assert (Hidx : index
                 = result (build_from E
                             (store_variants pageid key u (build_index E pre)) post)).
  { unfold index, build_index. rewrite build_from_app. simpl. 
    fold (build_index E pre). rewrite Hstep. reflexivity. }
  apply dict_mem_get in Hk as [v Hv]. split.
  - apply dict_mem_get. exists v. rewrite Hidx. now apply build_from_keeps.
  - intros Hb. apply dict_mem_false in Hb.
    destruct (store_variants_extends pageid key u (build_index E pre))
      as (_ & Hnew & _).
    destruct (Hnew k Hb) as [Hn|Hs]; unfold after in Hv; [congruence|].
    rewrite Hidx. now apply build_from_keeps.
Qed.

End IndexProperties.

(** * The claims about the index *)

(** C8.  While the index is built, a value stored under a key is never
    replaced: a binding present after a prefix of the elements is still
    there, unchanged, after any further elements; the dictionary is
    exactly the sequence of assignments executed, and no two of them are
    on the same key. *)
Theorem first_inserted_value_wins (E : Env) (pre post : list nav_div) (k v : string) :
  dict_get k (result (build_index E pre)) = Some v ->
  dict_get k (result (build_index E (pre ++ post))) = Some v
  /\ result (build_index E (pre ++ post)) = writes (build_index E (pre ++ post))
  /\ NoDup (map fst (writes (build_index E (pre ++ post)))).
Proof.
  intros H. split.
  - unfold build_index. rewrite build_from_app. now apply build_from_keeps.
  - apply build_from_written_once, empty_index_written_once.
Qed.

Lemma first_inserted_value_wins_witness :
  dict_get "a"
    (result (build_index (site [])
               ([entry "a" "1.html"] ++ [entry "a" "2.html"; entry "b///a" "3.html"])))
  = Some "https://api.koog.ai/1.html"
  /\ result (build_index (site [])
               ([entry "a" "1.html"] ++ [entry "a" "2.html"; entry "b///a" "3.html"]))
     = writes (build_index (site [])
                 ([entry "a" "1.html"] ++ [entry "a" "2.html"; entry "b///a" "3.html"]))
  /\ NoDup (map fst (writes (build_index (site [])
               ([entry "a" "1.html"] ++ [entry "a" "2.html"; entry "b///a" "3.html"])))).
Proof.
  apply (first_inserted_value_wins (site []) [entry "a" "1.html"]
           [entry "a" "2.html"; entry "b///a" "3.html"] "a"
           "https://api.koog.ai/1.html").
  reflexivity.
Defined.

(** C1, as stated, fails: for the identifier [proj///mod/Cls] the index
    holds the key [proj] only, and no key [proj.mod.Cls]; and the base key
    and the dotted key of an element map to different URLs when an earlier
    element has stored one of them. *)
Lemma dotted_full_identifier_absent :
  fst (_build_navigation_map (site [entry "proj///mod/Cls" "mod/Cls/index.html"])
         initial_world)
  = Some [("proj", "https://api.koog.ai/mod/Cls/index.html")]
  /\ dict_mem "proj.mod.Cls"
       (result (build_index (site []) [entry "proj///mod/Cls" "mod/Cls/index.html"]))
     = false
  /\ result (build_index (site [])
               [entry "a.b" "1.html"; entry "a/b///C" "2.html"])
     = [("a.b", "https://api.koog.ai/1.html"); ("a/b", "https://api.koog.ai/2.html")].
Proof. split; [|split]; reflexivity. Qed.

(** C1, amended.  For an element whose identifier is [A///R], with a row
    anchor carrying a non-empty href, the index holds the key [A] and the
    key [A] with every "/" replaced by "."; each of the two that no earlier
    element had stored maps to this element's resolved URL. *)
Theorem triple_slash_entry_keys (E : Env) (pre post : list nav_div)
    (A R href : string) :
  contains "///" (A ++ "//") = false ->
  nonempty href = true ->
  let div := {| div_pageid := A ++ "///" ++ R;
                div_toc_row := Some {| row_a := Some {| a_href := Some href |} |} |} in
  let before := result (build_index E pre) in
  let index := result (build_index E (pre ++ div :: post)) in
  dict_mem A index = true
  /\ dict_mem (replace "/" "." A) index = true
  /\ (dict_mem A before = false -> dict_get A index = Some (normalize_href E href))
  /\ (dict_mem (replace "/" "." A) before = false ->
      dict_get (replace "/" "." A) index = Some (normalize_href E href)).
Proof.
  intros HA Hh div before index.
  assert (Hkey : split1_head "///" (A ++ "///" ++ R) = A)
    by (apply split1_head_first; exact HA).
  assert (Hp : nonempty (A ++ "///" ++ R) = true) by now destruct A.
  pose proof (store_variants_key (A ++ "///" ++ R) A (normalize_href E href)
                (build_index E pre)) as H1.
  pose proof (store_variants_dotted (A ++ "///" ++ R) A (normalize_href E href)
                (build_index E pre) (contains_first "///" A R)) as H2.
  pose proof (entry_in_index E pre post (A ++ "///" ++ R) href A Hp Hh) as K1.
  pose proof (entry_in_index E pre post (A ++ "///" ++ R) href
                (replace "/" "." A) Hp Hh) as K2.
  cbv zeta in K1, K2. rewrite Hkey in K1, K2.
  destruct (K1 H1) as [M1 V1]. destruct (K2 H2) as [M2 V2].
  split; [exact M1|]. split; [exact M2|]. split; assumption.
Qed.

Lemma triple_slash_entry_keys_witness :
  let index :=
    result (build_index (site [])
              ([entry "x" "x.html"]
               ++ entry "koog/agents///ai.koog/Agent" "agents/index.html" :: [])) in
  dict_mem "koog/agents" index = true
  /\ dict_mem "koog.agents" index = true
  /\ dict_get "koog/agents" index = Some "https://api.koog.ai/agents/index.html"
  /\ dict_get "koog.agents" index = Some "https://api.koog.ai/agents/index.html".
Proof.
  pose proof (triple_slash_entry_keys (site []) [entry "x" "x.html"] []
                "koog/agents" "ai.koog/Agent" "agents/index.html"
                eq_refl eq_refl) as (M1 & M2 & V1 & V2).
  intros index. split; [exact M1|]. split; [exact M2|].
  split; [apply V1; reflexivity | apply V2; reflexivity].
Defined.

(** C2, as stated, fails: the trimmed keys of the second element were
    stored by the first one and keep its URL; and a base key that ends
    with its "//" has the text before the "//" for trimmed key, so that no
    key ends with "." on its account. *)
Lemma trimmed_key_keeps_earlier_url :
  let index :=
    result (build_index (site [])
              [entry "pkg//member" "a.html"; entry "pkg//member/extra" "b.html"]) in
  normalize_href (site []) "b.html" = "https://api.koog.ai/b.html"
  /\ dict_get "pkg//member" index = Some "https://api.koog.ai/a.html"
  /\ dict_get "pkg.member" index = Some "https://api.koog.ai/a.html"
  /\ result (build_index (site []) [entry "pkg//" "c.html"])
     = [("pkg//", "https://api.koog.ai/c.html"); ("pkg", "https://api.koog.ai/c.html")].
Proof. repeat split; reflexivity. Qed.

(** C2, amended.  For an element whose base key is [B//S] followed by
    nothing or by "/" and more, [S] being a non-empty segment, with a row
    anchor carrying a non-empty href, the index holds the trimmed key
    [B//S] and the dotted-trimmed key, [B] with every "/" replaced by "."
    followed by "." and [S]; each of the two that no earlier element had
    stored maps to this element's resolved URL. *)
Theorem double_slash_entry_keys (E : Env) (pre post : list nav_div)
    (pageid B S R href : string) :
  split1_head "///" pageid = B ++ "//" ++ S ++ R ->
  contains "//" (B ++ "/") = false ->
  nonempty S = true ->
  contains "/" S = false ->
  R = "" \/ startswith "/" R = true ->
  nonempty href = true ->
  let div := {| div_pageid := pageid;
                div_toc_row := Some {| row_a := Some {| a_href := Some href |} |} |} in
  let before := result (build_index E pre) in
  let index := result (build_index E (pre ++ div :: post)) in
  let trimmed := B ++ "//" ++ S in
  let dotted_trimmed := replace "/" "." B ++ "." ++ S in
  dict_mem trimmed index = true
  /\ dict_mem dotted_trimmed index = true
  /\ (dict_mem trimmed before = false ->
      dict_get trimmed index = Some (normalize_href E href))
  /\ (dict_mem dotted_trimmed before = false ->
      dict_get dotted_trimmed index = Some (normalize_href E href)).
Proof.
  intros Hkey HB HS HnoS HR Hh div before index trimmed dotted_trimmed.
  assert (Hp : nonempty pageid = true).
  { apply (split1_head_nonempty "///"). rewrite Hkey.
    destruct B; [reflexivity|reflexivity]. }
  assert (Ht : trimmed_of (B ++ "//" ++ S ++ R) = trimmed)
    by now apply trimmed_of_shape.
  assert (Hd : replace "/" "." (replace "//" "." trimmed) = dotted_trimmed)
    by now apply dotted_trimmed_shape.
  assert (Hc : contains "//" (B ++ "//" ++ S ++ R) = true)
    by apply contains_first.
  assert (Hn : nonempty trimmed = true) by (unfold trimmed; now destruct B).
  pose proof (store_variants_trimmed pageid (B ++ "//" ++ S ++ R)
                (normalize_href E href) (build_index E pre) Hc) as H.
  rewrite Ht, Hd in H. destruct (H Hn) as [H1 H2].
  pose proof (entry_in_index E pre post pageid href trimmed Hp Hh) as K1.
  pose proof (entry_in_index E pre post pageid href dotted_trimmed Hp Hh) as K2.
  cbv zeta in K1, K2. rewrite Hkey in K1, K2.
  destruct (K1 H1) as [M1 V1]. destruct (K2 H2) as [M2 V2].
  split; [exact M1|]. split; [exact M2|]. split; assumption.
Qed.

Lemma double_slash_entry_keys_witness :
  let index :=
    result (build_index (site [])
              ([entry "x" "x.html"]
               ++ entry "ai/pkg//member/extra///rest" "b.html" :: [])) in
  dict_mem "ai/pkg//member" index = true
  /\ dict_mem "ai.pkg.member" index = true
  /\ dict_get "ai/pkg//member" index = Some "https://api.koog.ai/b.html"
  /\ dict_get "ai.pkg.member" index = Some "https://api.koog.ai/b.html".
Proof.
  pose proof (double_slash_entry_keys (site []) [entry "x" "x.html"] []
                "ai/pkg//member/extra///rest" "ai/pkg" "member" "/extra" "b.html"
                eq_refl eq_refl eq_refl eq_refl (or_intror eq_refl) eq_refl)
    as (M1 & M2 & V1 & V2).
  intros index. split; [exact M1|]. split; [exact M2|].
  split; [apply V1; reflexivity | apply V2; reflexivity].
Defined.

(** * Facts about the scan *)

Section ScanFacts.

Lemma span_not_app stop s : fst (span_not stop s) ++ snd (span_not stop s) = s.
Proof.
  induction s as [|c s IH]; [reflexivity|]. simpl.
  destruct (Ascii.eqb c stop); [reflexivity|].
  destruct (span_not stop s) as [run rest]. simpl in *. congruence.
Qed.

Lemma span_not_free stop s :
  contains (String stop "") (fst (span_not stop s)) = false.
Proof.
  induction s as [|c s IH]; [reflexivity|]. simpl.
  destruct (Ascii.eqb c stop) eqn:Hc; [reflexivity|].
  destruct (span_not stop s) as [run rest]. simpl in *.
  rewrite contains_char_cons, IH, Ascii.eqb_sym, Hc. reflexivity.
Qed.

Lemma span_not_exact stop x y :
  contains (String stop "") x = false ->
  span_not stop (x ++ String stop y) = (x, String stop y).
Proof.
  induction x as [|c x IH]; intros H.
  - simpl. now rewrite Ascii.eqb_refl.
  - rewrite contains_char_cons in H. apply orb_false_elim in H as [Hc H].
    simpl. rewrite Ascii.eqb_sym, Hc, (IH H). reflexivity.
Qed.

Lemma match_at_inv s link_text target rest :
  match_at s = Some (link_text, target, rest) ->
  s = group0 link_text target ++ rest
  /\ nonempty link_text = true
  /\ contains "]" link_text = false
  /\ startswith "api:" target = true
  /\ contains "](api:" s = true.
Proof.
  unfold match_at. destruct s as [|c s1]; [discriminate|].
  destruct (Ascii.eqb c "[") eqn:Hc; [|discriminate].
  apply Ascii.eqb_eq in Hc. subst c.
  pose proof (span_not_app "]" s1) as Happ1.
  pose proof (span_not_free "]" s1) as Hfree1.
  destruct (span_not "]" s1) as [lt1 r1]. cbn [fst snd] in *.
  destruct (nonempty lt1 && startswith "](api:" r1) eqn:Hg; [|discriminate].
  apply andb_prop in Hg as [Hne Hp].
  pose proof (span_not_app ")" (drop 6 r1)) as Happ2.
  destruct (span_not ")" (drop 6 r1)) as [tl r2]. cbn [fst snd] in *.
  destruct (nonempty tl && startswith ")" r2) eqn:Hg2; [|discriminate].
  apply andb_prop in Hg2 as [_ Hp2].
  intros H. injection H as <- <- <-.
  pose proof (startswith_split _ _ Hp) as Hr1.
  pose proof (startswith_split _ _ Hp2) as Hr2.
  change (String.length "](api:") with 6 in Hr1.
  change (String.length ")") with 1 in Hr2.
  repeat split; try assumption.
  - unfold group0. rewrite <- Happ1, Hr1, <- Happ2, Hr2 at 1.
    rewrite !append_assoc. reflexivity.
  - change (String "[" s1) with ("[" ++ s1). rewrite <- Happ1.
    apply contains_app_r, contains_app_r, contains_startswith, Hp.
Qed.

Lemma match_at_link T K rest :
  nonempty T = true -> contains "]" T = false ->
  nonempty K = true -> contains ")" K = false ->
  match_at (group0 T ("api:" ++ K) ++ rest) = Some (T, "api:" ++ K, rest).
Proof.
  intros HT HnT HK HnK. unfold group0, match_at.
  rewrite !append_assoc. cbn [append]. rewrite Ascii.eqb_refl.
  change (T ++ String "]" (String "(" (String "a" (String "p" (String "i"
             (String ":" (K ++ String ")" rest)))))))
    with (T ++ String "]" ("(api:" ++ K ++ String ")" rest)).
  rewrite (span_not_exact "]" T _ HnT), HT.
  cbn [andb startswith drop append]. rewrite !Ascii.eqb_refl. cbn [andb].
  rewrite (span_not_exact ")" K rest HnK), HK.
  cbn [andb startswith]. rewrite Ascii.eqb_refl. reflexivity.
Qed.

Lemma scan_cons c s :
  scan (String c s) =
  match match_at (String c s) with
  | Some (link_text, target, rest) => TLink link_text target :: scan rest
  | None => TChar c :: scan s
  end.
Proof.
  assert (G : forall o (e : match_at (String c s) = o),
             scan_unfold_clause_2 c s (exist _ o e)
             = match o with
               | Some (link_text, target, rest) =>
                   TLink link_text target :: scan rest
               | None => TChar c :: scan s
               end).
  { intros [[[lt tg] rest]|] e; reflexivity. }
  simp scan. unfold inspect. apply G.
Qed.

(** The scan loses no text. *)
Lemma text_of_scan s : text_of (scan s) = s.
Proof.
  remember (String.length s) as n eqn:Hn.
  revert s Hn. induction n as [n IH] using lt_wf_ind. intros s Hn.
  destruct s as [|c s]; [reflexivity|].
  rewrite scan_cons.
  destruct (match_at (String c s)) as [[[lt tg] rest]|] eqn:Hm.
  - pose proof (match_at_inv _ _ _ _ Hm) as (Htext & _).
    assert (Hlen : String.length rest < n).
    { rewrite Hn, Htext, length_append. unfold group0. simpl. lia. }
    simpl. rewrite (IH _ Hlen rest eq_refl). symmetry. exact Htext.
  - simpl. f_equal. apply (IH (String.length s)); [simpl in Hn; lia|reflexivity].
Qed.

(** A link can only be cut out of a text that holds "](api:". *)
Lemma scan_link_marker s link_text target :
  In (TLink link_text target) (scan s) -> contains "](api:" s = true.
Proof.
  induction s as [|c s IH]; [intros []|].
  rewrite scan_cons.
  destruct (match_at (String c s)) as [[[lt tg] rest]|] eqn:Hm.
  - intros _. now apply match_at_inv in Hm.
  - intros [H|H]; [discriminate|].
    change (String c s) with (String c "" ++ s). apply contains_app_r, IH, H.
Qed.

Lemma scan_single_link T K :
  nonempty T = true -> contains "]" T = false ->
  nonempty K = true -> contains ")" K = false ->
  scan ("[" ++ T ++ "](api:" ++ K ++ ")") = [TLink T ("api:" ++ K)].
Proof.
  intros HT HnT HK HnK.
  pose proof (match_at_link T K "" HT HnT HK HnK) as Hm.
  assert (Heq : group0 T ("api:" ++ K) ++ "" = "[" ++ T ++ "](api:" ++ K ++ ")").
  { rewrite append_nil_r. unfold group0. reflexivity. }
  rewrite Heq in Hm. cbn [append] in *. rewrite scan_cons, Hm. reflexivity.
Qed.

End ScanFacts.

(** * The cache and the printed lines *)

Section WorldFacts.

Lemma printed_only_refl w : printed_only w w.
Proof.
  unfold printed_only. repeat split; try reflexivity.
  exists []. now rewrite app_nil_r.
Qed.

Lemma printed_only_trans w1 w2 w3 :
  printed_only w1 w2 -> printed_only w2 w3 -> printed_only w1 w3.
Proof.
  intros (M1 & F1 & R1 & l1 & S1) (M2 & F2 & R2 & l2 & S2).
  unfold printed_only. repeat split; try congruence.
  exists (l1 ++ l2)%list. rewrite S2, S1. now rewrite app_assoc.
Qed.

Lemma printed_only_print line w : printed_only w (print line w).
Proof.
  unfold printed_only, print. simpl. repeat split; try reflexivity.
  now exists [line].
Qed.

Lemma printed_only_print_all lines w : printed_only w (print_all lines w).
Proof.
  revert w; induction lines as [|l lines IH]; intros w; simpl.
  - apply printed_only_refl.
  - eapply printed_only_trans; [apply printed_only_print|apply IH].
Qed.

Lemma printed_only_settled w w' : printed_only w w' -> settled w' = settled w.
Proof. intros (M & F & _). unfold settled. now rewrite M, F. Qed.

Lemma stdout_print_all lines w :
  stdout (print_all lines w) = (stdout w ++ lines)%list.
Proof.
  revert w; induction lines as [|l lines IH]; intros w; simpl.
  - now rewrite app_nil_r.
  - rewrite IH. simpl. now rewrite <- app_assoc.
Qed.

(** Peels the printing steps off a goal [printed_only w (print ... w)]. *)
Ltac peel_prints :=
  repeat first
    [ apply printed_only_refl
    | eapply printed_only_trans; [|apply printed_only_print]
    | eapply printed_only_trans; [|apply printed_only_print_all] ].

Variable E : Env.

(** Once an attempt has completed, the builder answers from the cache
    and touches nothing. *)
Lemma build_settled w :
  settled w = true -> _build_navigation_map E w = (_NAV_MAP w, w).
Proof.
  unfold settled, _build_navigation_map.
  destruct (_NAV_MAP w); [reflexivity|]. now intros ->.
Qed.

(** Every call completes an attempt, and returns what the cache holds. *)
Lemma build_completes w :
  fst (_build_navigation_map E w) = _NAV_MAP (snd (_build_navigation_map E w))
  /\ settled (snd (_build_navigation_map E w)) = true.
Proof.
  unfold _build_navigation_map, settled.
  destruct (_NAV_MAP w) as [m|] eqn:Hm; [simpl; now rewrite Hm|].
  destruct (_NAV_FETCH_FAILED w) eqn:Hf; [simpl; now rewrite Hm, Hf|].
  destruct (bs4_present E); simpl; [|now rewrite Hm].
  unfold fetch_navigation.
  destruct (urlopen E (requests w)) as [resp|e]; simpl; [|now rewrite Hm].
  destruct (Z.leb 200 (status resp) && Z.ltb (status resp) 300); simpl;
    [|now rewrite Hm].
  destruct (read resp) as [body|e]; simpl; [|now rewrite Hm].
  destruct (decode E _ body) as [html|e]; simpl; [|now rewrite Hm].
  destruct (find_pageid_divs E html) as [divs|e]; simpl; [auto|now rewrite Hm].
Qed.

Lemma variant_hints_returns key : exists hints, variant_hints key = Returns hints.
Proof.
  unfold variant_hints.
  destruct (negb (String.eqb (replace "." "/" (replace "::" "::" key)) key)
            && contains "::" key) eqn:Hg; [|eauto].
  apply andb_prop in Hg as [_ Hc]. unfold contains in Hc. unfold split1.
  destruct (find_nat "::" key); [|discriminate].
  destruct (negb _); eauto.
Qed.

Lemma report_miss_returns page m key w :
  exists w', report_miss E page m key w = (Returns tt, w')
             /\ printed_only w w'.
Proof.
  unfold report_miss. destruct (variant_hints_returns key) as [hints ->].
  eexists. split; [reflexivity|].
  destruct (_suggest_keys E m key 5); destruct hints; peel_prints.
Qed.

(** With no index to consult, [repl] gives the match back and touches
    nothing. *)
Lemma repl_without_index page link_text target w :
  _NAV_MAP w = Some [] \/ (_NAV_MAP w = None /\ _NAV_FETCH_FAILED w = true) ->
  repl E page link_text target w = (Returns (group0 link_text target), w).
Proof.
  intros H. unfold repl.
  destruct (negb (startswith "api:" target)); [reflexivity|].
  destruct (negb (nonempty (lookup_key target))); [reflexivity|].
  rewrite build_settled.
  - destruct H as [->|[-> _]]; reflexivity.
  - unfold settled. destruct H as [->|[-> ->]]; reflexivity.
Qed.

Lemma repl_settled page link_text target w :
  settled w = true -> printed_only w (snd (repl E page link_text target w)).
Proof.
  intros Hs. unfold repl.
  destruct (negb (startswith "api:" target)); [apply printed_only_refl|].
  destruct (negb (nonempty (lookup_key target))); [apply printed_only_refl|].
  rewrite (build_settled w Hs).
  destruct (_NAV_MAP w) as [[|kv m]|]; try apply printed_only_refl.
  destruct (dict_get (lookup_key target) (kv :: m)) as [[|c href]|].
  - destruct (report_miss_returns page (kv :: m) (lookup_key target) w)
      as (w' & -> & Hp). exact Hp.
  - destruct (urljoin E BASE_URL (String c href)); apply printed_only_refl.
  - destruct (report_miss_returns page (kv :: m) (lookup_key target) w)
      as (w' & -> & Hp). exact Hp.
Qed.

Lemma sub_tokens_settled page ts w :
  settled w = true -> printed_only w (snd (sub_tokens E page ts w)).
Proof.
  revert w; induction ts as [|[c|lt tg] ts IH]; intros w Hs; simpl.
  - apply printed_only_refl.
  - specialize (IH w Hs). now destruct (sub_tokens E page ts w) as [[out|e] w'].
  - pose proof (repl_settled page lt tg w Hs) as Hr.
    destruct (repl E page lt tg w) as [[r|e] w1]; simpl in Hr; [|exact Hr].
    assert (Hs1 : settled w1 = true) by now rewrite (printed_only_settled _ _ Hr).
    specialize (IH w1 Hs1).
    destruct (sub_tokens E page ts w1) as [[out|e] w2]; simpl in *;
      eapply printed_only_trans; eassumption.
Qed.

Lemma build_pages_settled pages w :
  settled w = true -> printed_only w (build_pages E pages w).
Proof.
  revert w; induction pages as [|[text page] pages IH]; intros w Hs; simpl.
  - apply printed_only_refl.
  - pose proof (sub_tokens_settled page (scan text) w Hs) as H1.
    fold (on_page_markdown E text page w) in H1.
    eapply printed_only_trans; [exact H1|]. apply IH.
    now rewrite (printed_only_settled _ _ H1).
Qed.

(** When [repl] gives every link of the list back untouched, the
    substitution returns the text of the list. *)
Lemma sub_tokens_passthrough page ts w :
  (forall link_text target,
      In (TLink link_text target) ts ->
      repl E page link_text target w = (Returns (group0 link_text target), w)) ->
  sub_tokens E page ts w = (Returns (text_of ts), w).
Proof.
  induction ts as [|[c|lt tg] ts IH]; intros H; simpl.
  - reflexivity.
  - rewrite IH; [reflexivity|]. intros lt tg Hin. apply H. now right.
  - rewrite (H lt tg (or_introl eq_refl)).
    rewrite IH; [reflexivity|]. intros lt' tg' Hin. apply H. now right.
Qed.

(** A text without "](api:" comes back as it is, whatever the world. *)
Lemma on_page_markdown_no_marker text page w :
  contains "](api:" text = false ->
  on_page_markdown E text page w = (Returns text, w).
Proof.
  intros H. unfold on_page_markdown.
  rewrite sub_tokens_passthrough, text_of_scan; [reflexivity|].
  intros lt tg Hin. apply scan_link_marker in Hin. congruence.
Qed.

Lemma on_page_markdown_without_index text page w :
  _NAV_MAP w = Some [] \/ (_NAV_MAP w = None /\ _NAV_FETCH_FAILED w = true) ->
  on_page_markdown E text page w = (Returns text, w).
Proof.
  intros H. unfold on_page_markdown.
  rewrite sub_tokens_passthrough, text_of_scan; [reflexivity|].
  intros lt tg _. now apply repl_without_index.
Qed.

End WorldFacts.

(** * The claims about the cache *)

(** C3.  Whatever the first call to the builder met, a later call, under
    any behaviour of the collaborators, returns the same result at once and
    leaves the world as it is; a success is cached and a failure is
    flagged; and no page processed afterwards issues a request or changes
    the cache or the flag, so that the builder still answers the same after
    them. *)
Theorem build_attempt_is_final (E E' : Env) (w : world)
    (pages : list (string * page_info)) :
  let r := fst (_build_navigation_map E w) in
  let w1 := snd (_build_navigation_map E w) in
  let w2 := build_pages E' pages w1 in
  _build_navigation_map E' w1 = (r, w1)
  /\ match r with
     | Some m => _NAV_MAP w1 = Some m
     | None => _NAV_MAP w1 = None /\ _NAV_FETCH_FAILED w1 = true
     end
  /\ requests w2 = requests w1
  /\ _NAV_MAP w2 = _NAV_MAP w1
  /\ _NAV_FETCH_FAILED w2 = _NAV_FETCH_FAILED w1
  /\ _build_navigation_map E' w2 = (r, w2).
Proof.
  intros r w1 w2.
  destruct (build_completes E w) as [Hr Hs]. fold r w1 in Hr, Hs.
  pose proof (build_pages_settled E' pages w1 Hs) as Hp. fold w2 in Hp.
  pose proof (printed_only_settled _ _ Hp) as Hs2. rewrite Hs in Hs2.
  destruct Hp as (M & F & R & _).
  split; [rewrite (build_settled E' w1 Hs); congruence|].
  split.
  { rewrite Hr. unfold settled in Hs. destruct (_NAV_MAP w1); auto. }
  split; [exact R|]. split; [exact M|]. split; [exact F|].
  rewrite (build_settled E' w2 Hs2). congruence.
Qed.

(** C10.  When the build returns an index with no entry, that empty index
    is what the cache holds and the builder returns it again without
    building; every page is then returned as it is and the world is left
    as it is, with nothing printed and no request issued, which is also
    what happens on every page once the build has failed. *)
Theorem empty_index_is_unavailable (E E' : Env) (w0 w : world)
    (markdown : string) (page : page_info) :
  _build_navigation_map E w0 = (Some [], w) ->
  _NAV_MAP w = Some []
  /\ _build_navigation_map E' w = (Some [], w)
  /\ on_page_markdown E' markdown page w = (Returns markdown, w)
  /\ (forall w', _NAV_MAP w' = None -> _NAV_FETCH_FAILED w' = true ->
                 on_page_markdown E' markdown page w' = (Returns markdown, w')).
Proof.
  intros Hb. destruct (build_completes E w0) as [Hr Hs].
  rewrite Hb in Hr, Hs. simpl in Hr, Hs. symmetry in Hr.
  split; [exact Hr|]. split.
  { rewrite (build_settled E' w Hs). now rewrite Hr. }
  split.
  - apply on_page_markdown_without_index. now left.
  - intros w' Hm Hf. apply on_page_markdown_without_index. now right.
Qed.

Lemma empty_index_is_unavailable_witness :
  _NAV_MAP (print "Info: API navigation loaded with 0 entries."
              (set_nav_map [] (count_request initial_world))) = Some []
  /\ _build_navigation_map unreachable_site
       (print "Info: API navigation loaded with 0 entries."
          (set_nav_map [] (count_request initial_world)))
     = (Some [], print "Info: API navigation loaded with 0 entries."
                   (set_nav_map [] (count_request initial_world)))
  /\ on_page_markdown unreachable_site "See [Agent](api:agents::ai.koog/Agent)."
       guide_page
       (print "Info: API navigation loaded with 0 entries."
          (set_nav_map [] (count_request initial_world)))
     = (Returns "See [Agent](api:agents::ai.koog/Agent).",
        print "Info: API navigation loaded with 0 entries."
          (set_nav_map [] (count_request initial_world)))
  /\ (forall w', _NAV_MAP w' = None -> _NAV_FETCH_FAILED w' = true ->
                 on_page_markdown unreachable_site
                   "See [Agent](api:agents::ai.koog/Agent)." guide_page w'
                 = (Returns "See [Agent](api:agents::ai.koog/Agent).", w')).
Proof.
  apply (empty_index_is_unavailable
           (site [{| div_pageid := "orphan///x"; div_toc_row := None |}])
           unreachable_site initial_world).
  reflexivity.
Defined.

(** * Facts about [repl] *)

Section ReplFacts.

Variable E : Env.

Lemma lookup_key_target tail : lookup_key ("api:" ++ tail) = strip tail.
Proof. reflexivity. Qed.

Lemma strip_empty_inv s : nonempty (strip s) = true -> nonempty s = true.
Proof. now destruct s. Qed.

(** The whitespace of the display text. *)
Lemma sub_ws_go_no_space in_run s :
  any_char is_space (sub_ws_go "-" in_run s) = false.
Proof.
  revert in_run; induction s as [|c s IH]; intros in_run; [reflexivity|].
  simpl. destruct (is_space c) eqn:Hc.
  - destruct in_run; [apply IH|]. simpl. apply IH.
  - simpl. rewrite Hc. apply IH.
Qed.

Lemma rstrip_by_none p s : any_char p s = false -> rstrip_by p s = s.
Proof.
  induction s as [|c s IH]; [reflexivity|]. simpl. intros H.
  apply orb_false_elim in H as [Hc H]. rewrite (IH H), Hc. now destruct s.
Qed.

Lemma lstrip_by_none p s : any_char p s = false -> lstrip_by p s = s.
Proof.
  destruct s as [|c s]; [reflexivity|]. simpl. intros H.
  apply orb_false_elim in H as [-> _]. reflexivity.
Qed.

Lemma sub_ws_go_none rep s :
  any_char is_space s = false -> sub_ws_go rep false s = s.
Proof.
  induction s as [|c s IH]; [reflexivity|]. simpl. intros H.
  apply orb_false_elim in H as [-> H]. now rewrite (IH H).
Qed.

Lemma display_without_space s :
  any_char is_space s = false -> sub_ws "-" (strip s) = s.
Proof.
  intros H. unfold strip, sub_ws.
  rewrite (lstrip_by_none _ _ H), (rstrip_by_none _ _ H). now apply sub_ws_go_none.
Qed.

(** A key found with a non-empty href. *)
Lemma repl_hit page link_text tail w w1 m href :
  nonempty (strip tail) = true ->
  _build_navigation_map E w = (Some m, w1) ->
  dict_get (strip tail) m = Some href ->
  nonempty href = true ->
  repl E page link_text ("api:" ++ tail) w =
  match urljoin E BASE_URL href with
  | Returns resolved =>
      (Returns ("[" ++ sub_ws "-" (strip link_text) ++ "](" ++ resolved ++ ")"), w1)
  | Raises e => (Raises e, w1)
  end.
Proof.
  intros Hk Hb Hg Hh. unfold repl.
  rewrite startswith_app, lookup_key_target, Hk, Hb. cbn [negb].
  destruct m as [|kv m]; [discriminate|]. rewrite Hg.
  destruct href as [|c href]; [discriminate|].
  now destruct (urljoin E BASE_URL (String c href)).
Qed.

(** A key not found in an index that has entries. *)
Lemma repl_miss page link_text tail w w1 m :
  nonempty (strip tail) = true ->
  _build_navigation_map E w = (Some m, w1) ->
  m <> [] ->
  dict_get (strip tail) m = None ->
  repl E page link_text ("api:" ++ tail) w =
  (Returns (group0 link_text ("api:" ++ tail)),
   snd (report_miss E page m (strip tail) w1)).
Proof.
  intros Hk Hb Hm Hg. unfold repl.
  rewrite startswith_app, lookup_key_target, Hk, Hb. cbn [negb].
  destruct m as [|kv m]; [contradiction|]. rewrite Hg.
  destruct (report_miss_returns E page (kv :: m) (strip tail) w1) as (w2 & -> & _).
  reflexivity.
Qed.

(** The lines printed for a miss: one warning, then indented lines. *)
Lemma report_miss_lines page m key w :
  exists details,
    stdout (snd (report_miss E page m key w)) =
    (stdout w
     ++ ("Warning: Unable to resolve API link target '" ++ key ++ "' in '"
         ++ page_path_of page ++ "'.")%string :: details)%list
    /\ Forall (fun line => startswith "  " line = true) details.
Proof.
  unfold report_miss. destruct (variant_hints_returns key) as [hints ->].
  cbn [snd].
  assert (Hmap : forall l, Forall (fun line => startswith "  " line = true)
                             (map (fun s => "    - " ++ s) l)).
  { intros l. induction l; constructor; auto. }
  destruct (_suggest_keys E m key 5) as [|s0 sugg]; destruct hints as [|h0 hints].
  - exists []. split; [reflexivity|constructor].
  - eexists. rewrite stdout_print_all. cbn [stdout print].
    rewrite <- !app_assoc. split; [reflexivity|].
    constructor; [reflexivity|apply Hmap].
  - eexists. rewrite stdout_print_all. cbn [stdout print].
    rewrite <- !app_assoc. split; [reflexivity|].
    constructor; [reflexivity|apply Hmap].
  - eexists. rewrite !stdout_print_all. cbn [stdout print].
    rewrite !stdout_print_all. cbn [stdout print].
    rewrite <- !app_assoc. split; [reflexivity|].
    constructor; [reflexivity|]. apply Forall_app. split; [apply Hmap|].
    constructor; [reflexivity|apply Hmap].
Qed.

(** The one way for [repl] to raise: [urljoin] raising on the href found
    for the key. *)
Lemma repl_raises_only_from_urljoin page link_text target w e :
  fst (repl E page link_text target w) = Raises e ->
  exists m href,
    fst (_build_navigation_map E w) = Some m
    /\ dict_get (lookup_key target) m = Some href
    /\ urljoin E BASE_URL href = Raises e.
Proof.
  unfold repl.
  destruct (negb (startswith "api:" target)); [discriminate|].
  destruct (negb (nonempty (lookup_key target))); [discriminate|].
  destruct (_build_navigation_map E w) as [[[|kv m]|] w1]; try discriminate.
  cbn [fst].
  destruct (dict_get (lookup_key target) (kv :: m)) as [[|c href]|] eqn:Hg.
  - destruct (report_miss_returns E page (kv :: m) (lookup_key target) w1)
      as (w2 & -> & _). discriminate.
  - destruct (urljoin E BASE_URL (String c href)) as [r|e'] eqn:Hu;
      [discriminate|].
    cbn [fst]. intros H. injection H as <-. exists (kv :: m), (String c href). auto.
  - destruct (report_miss_returns E page (kv :: m) (lookup_key target) w1)
      as (w2 & -> & _). discriminate.
Qed.

(** A failure of the matcher gives no suggestion. *)
Lemma suggest_keys_failure nav_map k limit e :
  get_close_matches E k (candidates_for nav_map k) limit = Raises e ->
  _suggest_keys E nav_map k limit = [].
Proof.
  intros H. unfold _suggest_keys. rewrite H. now destruct (difflib_present E).
Qed.

Lemma filter_none {A : Type} (l : list A) : filter (fun _ => false) l = [].
Proof. induction l; auto. Qed.

(** The candidates: the keys under the key's project prefix when there is
    such a prefix and some key is under it, else every key. *)
Lemma candidates_for_cases m key :
  candidates_for m key =
  let under_prefix :=
    filter (startswith (split1_head "::" key ++ "::")) (dict_keys m) in
  if contains "::" key && nonempty (split1_head "::" key)
  then match under_prefix with
       | [] => dict_keys m
       | _ :: _ => under_prefix
       end
  else dict_keys m.
Proof.
  unfold candidates_for, _extract_project_prefix. cbv zeta.
  destruct (contains "::" key); cbn [andb].
  - destruct (nonempty (split1_head "::" key)); cbn [andb].
    + reflexivity.
    + now rewrite filter_none.
  - cbn [nonempty andb]. now rewrite filter_none.
Qed.

End ReplFacts.

(** * Where "](api:" can occur *)

Section MarkerFacts.

Lemma contains_cons sub c s :
  contains sub (String c s) = startswith sub (String c s) || contains sub s.
Proof.
  unfold contains. rewrite (find_nat_unfold sub (String c s)).
  destruct (startswith sub (String c s)); [reflexivity|].
  now destruct (find_nat sub s).
Qed.

Lemma contains_skip_prefix a p x y :
  contains (String a "") x = false ->
  contains (String a p) (x ++ y) = contains (String a p) y.
Proof.
  induction x as [|c x IH]; [reflexivity|].
  rewrite contains_char_cons. intros H. apply orb_false_elim in H as [Hc H].
  cbn [append]. rewrite contains_cons. cbn [startswith]. rewrite Hc. cbn [andb orb].
  now apply IH.
Qed.

Lemma startswith_app_char p x c :
  contains (String c "") p = false ->
  startswith p (x ++ String c "") = startswith p x.
Proof.
  revert x; induction p as [|a p IH]; intros x H; [reflexivity|].
  rewrite contains_char_cons in H. apply orb_false_elim in H as [Hc H].
  destruct x as [|b x]; cbn [append startswith].
  - rewrite Ascii.eqb_sym, Hc. reflexivity.
  - now rewrite IH.
Qed.

Lemma contains_app_char a p x c :
  contains (String c "") (String a p) = false ->
  contains (String a p) (x ++ String c "") = contains (String a p) x.
Proof.
  intros H. induction x as [|b x IH].
  - cbn [append]. rewrite contains_cons.
    change (String c "") with ("" ++ String c "") at 1.
    rewrite (startswith_app_char _ "" c H). reflexivity.
  - cbn [append]. rewrite !contains_cons, IH.
    change (String b (x ++ String c "")) with (String b x ++ String c "").
    now rewrite (startswith_app_char _ (String b x) c H).
Qed.

Lemma contains_char_lstrip c p s :
  contains (String c "") s = false ->
  contains (String c "") (lstrip_by p s) = false.
Proof.
  induction s as [|a s IH]; [reflexivity|]. intros H. simpl.
  destruct (p a); [|exact H].
  rewrite contains_char_cons in H. apply orb_false_elim in H as [_ H]. auto.
Qed.

Lemma contains_char_rstrip c p s :
  contains (String c "") s = false ->
  contains (String c "") (rstrip_by p s) = false.
Proof.
  induction s as [|a s IH]; [reflexivity|].
  rewrite contains_char_cons. intros H. apply orb_false_elim in H as [Ha H].
  specialize (IH H). simpl. destruct (rstrip_by p s) as [|b r].
  - destruct (p a); [reflexivity|]. now rewrite contains_char_cons, Ha.
  - now rewrite contains_char_cons, Ha, IH.
Qed.

Lemma contains_char_sub_ws c in_run s :
  Ascii.eqb c "-" = false ->
  contains (String c "") s = false ->
  contains (String c "") (sub_ws_go "-" in_run s) = false.
Proof.
  intros Hc. revert in_run; induction s as [|a s IH]; intros in_run; [reflexivity|].
  rewrite contains_char_cons. intros H. apply orb_false_elim in H as [Ha H].
  simpl. destruct (is_space a).
  - destruct in_run; [now apply IH|].
    cbn [append]. rewrite contains_char_cons, Hc. now apply IH.
  - rewrite contains_char_cons, Ha. now apply IH.
Qed.

Lemma display_keeps_bracket_free T :
  contains "]" T = false -> contains "]" (sub_ws "-" (strip T)) = false.
Proof.
  intros H. unfold sub_ws, strip.
  apply contains_char_sub_ws; [reflexivity|].
  now apply contains_char_rstrip, contains_char_lstrip.
Qed.

(** A rewritten link holds no "](api:" unless its URL brings one. *)
Lemma rewritten_link_no_marker D U :
  contains "]" D = false ->
  startswith "api:" U = false ->
  contains "](api:" U = false ->
  contains "](api:" ("[" ++ D ++ "](" ++ U ++ ")") = false.
Proof.
  intros HD HU1 HU2. cbn [append]. rewrite contains_cons.
  cbn [startswith]. change (Ascii.eqb "]" "[") with false. cbn [andb orb].
  rewrite (contains_skip_prefix "]" "(api:" D _ HD).
  rewrite contains_cons. cbn [startswith]. rewrite !Ascii.eqb_refl. cbn [andb].
  change (startswith "api:" (U ++ ")") || contains "](api:" (String "(" (U ++ ")"))
          = false).
  rewrite (startswith_app_char "api:" U ")" eq_refl), HU1. cbn [orb].
  rewrite contains_cons. cbn [startswith].
  change (Ascii.eqb "]" "(") with false. cbn [andb orb].
  now rewrite (contains_app_char "]" "(api:" U ")" eq_refl).
Qed.

End MarkerFacts.

(** * The URLs and the lines of a substitution *)

Section SubstitutionFacts.


Variable E : Env.




End SubstitutionFacts.

(** * The claims about the rewriter *)




(** C9, as stated, fails: the key looked up is the text after the prefix
    with the whitespace at its ends removed, so [api: k] finds the key [k],
    which the exact text " k" would not. *)
Lemma lookup_key_is_not_verbatim :
  lookup_key "api: k" = "k"
  /\ key_as_claimed "api: k" = " k"
  /\ dict_get (key_as_claimed "api: k") [("k", "https://api.koog.ai/k.html")] = None
  /\ fst (on_page_markdown (site [entry "k" "k.html"]) "[T](api: k)" guide_page
            initial_world)
     = Returns "[T](https://api.koog.ai/k.html)".
Proof. repeat split. Qed.

(** C9, amended.  The lookup key of a match is the text after the [api:]
    prefix with the whitespace at its ends removed, and nothing else done
    to it.  When that key is empty the match is returned as it is and the
    index is not consulted.  Otherwise the index is searched for exactly
    that key: a binding of it to a non-empty href decides the substitution,
    and without a binding of it the match is returned as it is. *)
Theorem lookup_key_is_trimmed_target (E : Env) (page : page_info)
    (link_text tail : string) (w w1 : world) (m : dict) :
  _build_navigation_map E w = (Some m, w1) ->
  let target := "api:" ++ tail in
  lookup_key target = strip tail
  /\ (nonempty (strip tail) = false ->
      repl E page link_text target w = (Returns (group0 link_text target), w))
  /\ (nonempty (strip tail) = true ->
      forall href resolved,
        dict_get (strip tail) m = Some href -> nonempty href = true ->
        urljoin E BASE_URL href = Returns resolved ->
        fst (repl E page link_text target w)
        = Returns ("[" ++ sub_ws "-" (strip link_text) ++ "](" ++ resolved ++ ")"))
  /\ (nonempty (strip tail) = true ->
      dict_get (strip tail) m = None ->
      fst (repl E page link_text target w) = Returns (group0 link_text target)).
Proof.
  intros Hb target. split; [reflexivity|]. split; [|split].
  - intros Hk. unfold repl, target.
    rewrite startswith_app, lookup_key_target, Hk. reflexivity.
  - intros Hk href resolved Hg Hh Hu. unfold target.
    rewrite (repl_hit E page link_text tail w w1 m href Hk Hb Hg Hh), Hu.
    reflexivity.
  - intros Hk Hg. unfold target. destruct m as [|kv m].
    + unfold repl. rewrite startswith_app, lookup_key_target, Hk, Hb. reflexivity.
    + rewrite (repl_miss E page link_text tail w w1 (kv :: m) Hk Hb); 
        [reflexivity|discriminate|exact Hg].
Qed.

Lemma lookup_key_is_trimmed_target_witness :
  let m := [("agents::ai.koog", "https://api.koog.ai/agents/index.html")] in
  let target := "api:" ++ " agents::ai/koog " in
  lookup_key target = strip " agents::ai/koog "
  /\ (nonempty (strip " agents::ai/koog ") = false ->
      repl (site []) guide_page "Agents" target (built m)
      = (Returns (group0 "Agents" target), built m))
  /\ (nonempty (strip " agents::ai/koog ") = true ->
      forall href resolved,
        dict_get (strip " agents::ai/koog ") m = Some href -> nonempty href = true ->
        urljoin (site []) BASE_URL href = Returns resolved ->
        fst (repl (site []) guide_page "Agents" target (built m))
        = Returns ("[" ++ sub_ws "-" (strip "Agents") ++ "](" ++ resolved ++ ")"))
  /\ (nonempty (strip " agents::ai/koog ") = true ->
      dict_get (strip " agents::ai/koog ") m = None ->
      fst (repl (site []) guide_page "Agents" target (built m))
      = Returns (group0 "Agents" target)).
Proof.
  intros m target.
  apply (lookup_key_is_trimmed_target (site []) guide_page "Agents"
           " agents::ai/koog " (built m) (built m) m).
  reflexivity.
Defined.

(** C7 is what the code is meant to do and does not: the builder falls
    back to the raw href when [urljoin] raises on it, and [repl] then calls
    [urljoin] on that href with no guard, so the exception leaves the
    hook. *)
Theorem unguarded_urljoin_raises :
  fst (_build_navigation_map (site [entry "k" "//["]) initial_world)
  = Some [("k", "//[")]
  /\ fst (on_page_markdown (site [entry "k" "//["]) "[T](api:k)" guide_page
            initial_world)
     = Raises "Invalid IPv6 URL".
Proof. split; reflexivity. Qed.

(** C5, as stated, fails: the display text of the output is not the one
    of the input when it holds whitespace; an index entry whose href
    carries the [api:] scheme is rewritten to a link that is rewritten
    again by a second pass; and a key of the index that holds ")", or a
    display text that holds "]", gives a text that is not a match of the
    pattern with that key, and is returned as it is. *)
Lemma rewrite_is_not_always_idempotent :
  fst (on_page_markdown (site [entry "k" "k.html"]) "[a b](api:k)" guide_page
         initial_world)
  = Returns "[a-b](https://api.koog.ai/k.html)"
  /\ (let E := site [entry "k" "api:k2"; entry "k2" "x.html"] in
      let once := on_page_markdown E "[T](api:k)" guide_page initial_world in
      fst once = Returns "[T](api:k2)"
      /\ fst (on_page_markdown E "[T](api:k2)" guide_page (snd once))
         = Returns "[T](https://api.koog.ai/x.html)")
  /\ dict_get "f(x)" (result (build_index (site []) [entry "f(x)" "f.html"]))
     = Some "https://api.koog.ai/f.html"
  /\ fst (on_page_markdown (site [entry "f(x)" "f.html"]) "[T](api:f(x))" guide_page
            initial_world)
     = Returns "[T](api:f(x))"
  /\ on_page_markdown (site [entry "k" "k.html"]) "[a]b](api:k)" guide_page
       initial_world
     = (Returns "[a]b](api:k)", initial_world).
Proof. repeat split. Qed.

(** C5, amended.  Let [T] be a non-empty display text free of "]" and [K]
    a key text free of ")" (so that [[T](api:K)] is one match of the
    pattern), such that [K] with the whitespace at its ends removed is not
    empty and is found in the index with a non-empty href that resolves to
    [resolved].  The page [[T](api:K)] is rewritten to [[D](resolved)]
    where [D] is [T] with the whitespace at its ends removed and the
    remaining runs of whitespace replaced by hyphens, which is [T] itself
    when [T] holds no whitespace.  When [resolved] neither starts with
    [api:] nor holds "](api:", rewriting the output again returns it as it
    is and leaves the world as it is.  A text that holds no "](api:", such
    as [[T](https://example.com)], is returned as it is in any world. *)
Theorem rewrite_round_trip (E : Env) (page : page_info) (T K : string)
    (w w1 : world) (m : dict) (href resolved : string) :
  nonempty T = true ->
  contains "]" T = false ->
  contains ")" K = false ->
  nonempty (strip K) = true ->
  _build_navigation_map E w = (Some m, w1) ->
  dict_get (strip K) m = Some href ->
  nonempty href = true ->
  urljoin E BASE_URL href = Returns resolved ->
  let out := "[" ++ sub_ws "-" (strip T) ++ "](" ++ resolved ++ ")" in
  on_page_markdown E ("[" ++ T ++ "](api:" ++ K ++ ")") page w = (Returns out, w1)
  /\ (any_char is_space T = false -> out = "[" ++ T ++ "](" ++ resolved ++ ")")
  /\ (startswith "api:" resolved = false ->
      contains "](api:" resolved = false ->
      on_page_markdown E out page w1 = (Returns out, w1))
  /\ (forall text w', contains "](api:" text = false ->
                      on_page_markdown E text page w' = (Returns text, w'))
  /\ (forall w', on_page_markdown E "[T](https://example.com)" page w'
                 = (Returns "[T](https://example.com)", w')).
Proof.
  intros HT HnT HnK Hk Hb Hg Hh Hu out. split; [|split; [|split; [|split]]].
  - unfold on_page_markdown.
    rewrite (scan_single_link T K HT HnT (strip_empty_inv K Hk) HnK).
    cbn [sub_tokens].
    rewrite (repl_hit E page T K w w1 m href Hk Hb Hg Hh), Hu.
    now rewrite append_nil_r.
  - intros Hs. unfold out. now rewrite (display_without_space T Hs).
  - intros H1 H2. apply on_page_markdown_no_marker.
    apply rewritten_link_no_marker; [|exact H1|exact H2].
    now apply display_keeps_bracket_free.
  - intros text w' H. now apply on_page_markdown_no_marker.
  - intros w'. now apply on_page_markdown_no_marker.
Qed.

Lemma rewrite_round_trip_witness :
  let m := [("agents::Agent", "https://api.koog.ai/agents/-agent/index.html")] in
  let resolved := "https://api.koog.ai/agents/-agent/index.html" in
  let out := "[" ++ sub_ws "-" (strip "Agent") ++ "](" ++ resolved ++ ")" in
  on_page_markdown (site []) ("[" ++ "Agent" ++ "](api:" ++ "agents::Agent" ++ ")")
    guide_page (built m) = (Returns out, built m)
  /\ (any_char is_space "Agent" = false -> out = "[" ++ "Agent" ++ "](" ++ resolved ++ ")")
  /\ (startswith "api:" resolved = false ->
      contains "](api:" resolved = false ->
      on_page_markdown (site []) out guide_page (built m) = (Returns out, built m))
  /\ (forall text w', contains "](api:" text = false ->
                      on_page_markdown (site []) text guide_page w' = (Returns text, w'))
  /\ (forall w', on_page_markdown (site []) "[T](https://example.com)" guide_page w'
                 = (Returns "[T](https://example.com)", w')).
Proof.
  intros m resolved out.
  apply (rewrite_round_trip (site []) guide_page "Agent" "agents::Agent"
           (built m) (built m) m resolved resolved); reflexivity.
Defined.




(** * Further properties of the builder's attempts *)

Section Reach.

Variable E : Env.
Variable R : world -> world -> Prop.
Hypothesis R_refl : forall w, R w w.
Hypothesis R_trans : forall w1 w2 w3, R w1 w2 -> R w2 w3 -> R w1 w3.
Hypothesis R_printed : forall w w', printed_only w w' -> R w w'.
Hypothesis R_build : forall w, R w (snd (_build_navigation_map E w)).

(** A relation that holds across the builder and across printing holds
    across [repl], across a page and across a build. *)
Lemma repl_reach page link_text target w :
  R w (snd (repl E page link_text target w)).
Proof.
  unfold repl.
  destruct (negb (startswith "api:" target)); [apply R_refl|].
  destruct (negb (nonempty (lookup_key target))); [apply R_refl|].
  pose proof (R_build w) as Hb.
  destruct (_build_navigation_map E w) as [[[|kv m]|] w1]; cbn [snd] in *;
    try exact Hb.
  destruct (dict_get (lookup_key target) (kv :: m)) as [[|c href]|].
  - destruct (report_miss_returns E page (kv :: m) (lookup_key target) w1)
      as (w2 & -> & Hp). cbn [snd]. eapply R_trans; [exact Hb|auto].
  - now destruct (urljoin E BASE_URL (String c href)).
  - destruct (report_miss_returns E page (kv :: m) (lookup_key target) w1)
      as (w2 & -> & Hp). cbn [snd]. eapply R_trans; [exact Hb|auto].
Qed.

Lemma sub_tokens_reach page ts w : R w (snd (sub_tokens E page ts w)).
Proof.
  revert w; induction ts as [|[c|lt tg] ts IH]; intros w; simpl.
  - apply R_refl.
  - specialize (IH w). now destruct (sub_tokens E page ts w) as [[out|e] w'].
  - pose proof (repl_reach page lt tg w) as Hr.
    destruct (repl E page lt tg w) as [[r|e] w1]; cbn [snd] in Hr; [|exact Hr].
    specialize (IH w1).
    destruct (sub_tokens E page ts w1) as [[out|e] w2]; cbn [snd] in *;
      eapply R_trans; eassumption.
Qed.

Lemma build_pages_reach pages w : R w (build_pages E pages w).
Proof.
  revert w; induction pages as [|[text page] pages IH]; intros w; simpl.
  - apply R_refl.
  - eapply R_trans; [|apply IH]. apply sub_tokens_reach.
Qed.

End Reach.

Section AttemptFacts.

Variable E : Env.

Lemma printed_only_cap w w' : printed_only w w' -> request_cap w' = request_cap w.
Proof.
  intros Hp. unfold request_cap. rewrite (printed_only_settled _ _ Hp).
  destruct Hp as (_ & _ & -> & _). reflexivity.
Qed.

(** What a call of the builder does to the number of requests. *)
Lemma build_requests w :
  requests (snd (_build_navigation_map E w))
  = requests w + (if settled w then 0 else if bs4_present E then 1 else 0).
Proof.
  unfold _build_navigation_map, settled.
  destruct (_NAV_MAP w) as [m|]; [simpl; lia|].
  destruct (_NAV_FETCH_FAILED w); [simpl; lia|].
  destruct (bs4_present E); cbn [negb]; [|simpl; lia].
  unfold fetch_navigation.
  destruct (urlopen E (requests w)) as [resp|e]; [|simpl; lia].
  destruct (Z.leb 200 (status resp) && Z.ltb (status resp) 300); cbn [negb];
    [|simpl; lia].
  destruct (read resp) as [body|e]; [|simpl; lia].
  destruct (decode E _ body) as [html|e]; [|simpl; lia].
  destruct (find_pageid_divs E html) as [divs|e]; simpl; lia.
Qed.

Lemma build_cap w :
  request_cap (snd (_build_navigation_map E w)) <= request_cap w.
Proof.
  unfold request_cap. destruct (build_completes E w) as [_ ->].
  rewrite build_requests. destruct (settled w); [lia|].
  destruct (bs4_present E); lia.
Qed.

End AttemptFacts.

(** X1.  However many pages a build processes, in whatever world it
    starts and whatever the collaborators do, at most one request is
    issued. *)
Theorem at_most_one_request (E : Env) (pages : list (string * page_info))
    (w : world) :
  requests (build_pages E pages w) <= requests w + 1.
Proof.
  assert (H : request_cap (build_pages E pages w) <= request_cap w).
  { apply (build_pages_reach E (fun w w' => request_cap w' <= request_cap w)).
    - intros; lia.
    - intros; lia.
    - intros w1 w2 Hp. rewrite (printed_only_cap _ _ Hp). lia.
    - apply build_cap. }
  unfold request_cap in H.
  destruct (settled (build_pages E pages w)); destruct (settled w); lia.
Qed.

(** X2.  Without the HTML parser installed no request is ever issued, by
    any number of pages, from any world. *)
Theorem no_request_without_bs4 (E : Env) (pages : list (string * page_info))
    (w : world) :
  bs4_present E = false ->
  requests (build_pages E pages w) = requests w.
Proof.
  intros Hb.
  apply (build_pages_reach E (fun w w' => requests w' = requests w)).
  - reflexivity.
  - intros; congruence.
  - now intros w1 w2 (_ & _ & -> & _).
  - intros w1. rewrite build_requests, Hb. destruct (settled w1); lia.
Qed.

Lemma no_request_without_bs4_witness :
  requests (build_pages (site_without_bs4 [entry "k" "k.html"])
              [("[T](api:k)", guide_page); ("See [U](api:k).", guide_page)]
              initial_world)
  = requests initial_world.
Proof.
  apply (no_request_without_bs4 (site_without_bs4 [entry "k" "k.html"])).
  reflexivity.
Defined.

(** X3.  The first attempt of a process prints exactly one line: the
    load message with the number of entries when it returns an index,
    which it then caches with the failure flag down, and a warning when it
    returns none, in which case the failure flag is up and the cache
    empty. *)
Theorem first_attempt_prints_one_line (E : Env) (w : world) :
  _NAV_MAP w = None ->
  _NAV_FETCH_FAILED w = false ->
  let r := fst (_build_navigation_map E w) in
  let w1 := snd (_build_navigation_map E w) in
  exists line,
    stdout w1 = (stdout w ++ [line])%list
    /\ match r with
       | Some m =>
           line = "Info: API navigation loaded with "
                  ++ str_of_nat (List.length m) ++ " entries."
           /\ _NAV_MAP w1 = Some m /\ _NAV_FETCH_FAILED w1 = false
       | None =>
           startswith "Warning: " line = true
           /\ _NAV_MAP w1 = None /\ _NAV_FETCH_FAILED w1 = true
       end.
Proof.
  intros Hm Hf. unfold _build_navigation_map. rewrite Hm, Hf.
  destruct (bs4_present E); cbn [negb fst snd].
  2:{ eexists. simpl. rewrite Hm. split; [reflexivity|]. auto. }
  unfold fetch_navigation.
  destruct (urlopen E (requests w)) as [resp|e].
  2:{ eexists. simpl. rewrite Hm. split; [reflexivity|]. auto. }
  destruct (Z.leb 200 (status resp) && Z.ltb (status resp) 300); cbn [negb].
  2:{ eexists. simpl. rewrite Hm. split; [reflexivity|]. auto. }
  destruct (read resp) as [body|e].
  2:{ eexists. simpl. rewrite Hm. split; [reflexivity|]. auto. }
  destruct (decode E _ body) as [html|e].
  2:{ eexists. simpl. rewrite Hm. split; [reflexivity|]. auto. }
  destruct (find_pageid_divs E html) as [divs|e].
  2:{ eexists. simpl. rewrite Hm. split; [reflexivity|]. auto. }
  eexists. simpl. rewrite Hf. split; [reflexivity|]. auto.
Qed.

Lemma first_attempt_prints_one_line_witness :
  let r := fst (_build_navigation_map unreachable_site initial_world) in
  let w1 := snd (_build_navigation_map unreachable_site initial_world) in
  exists line,
    stdout w1 = (stdout initial_world ++ [line])%list
    /\ match r with
       | Some m =>
           line = "Info: API navigation loaded with "
                  ++ str_of_nat (List.length m) ++ " entries."
           /\ _NAV_MAP w1 = Some m /\ _NAV_FETCH_FAILED w1 = false
       | None =>
           startswith "Warning: " line = true
           /\ _NAV_MAP w1 = None /\ _NAV_FETCH_FAILED w1 = true
       end.
Proof.
  apply (first_attempt_prints_one_line unreachable_site initial_world);
    reflexivity.
Defined.



(** * Further properties of the rewriter *)

Section UnresolvedFacts.

Variable E : Env.

(** The builder answers the same in the world it leaves. *)
Lemma build_again w :
  fst (_build_navigation_map E (snd (_build_navigation_map E w)))
  = fst (_build_navigation_map E w).
Proof.
  destruct (build_completes E w) as [Hr Hs].
  rewrite (build_settled E _ Hs). cbn [fst]. now rewrite Hr.
Qed.

Lemma build_after_printing w w' :
  settled w = true -> printed_only w w' ->
  fst (_build_navigation_map E w') = fst (_build_navigation_map E w).
Proof.
  intros Hs Hp. pose proof (printed_only_settled _ _ Hp) as Hs'.
  rewrite Hs in Hs'. rewrite (build_settled E w Hs), (build_settled E w' Hs').
  now destruct Hp as (-> & _).
Qed.

(** Where no key is bound, [repl] gives the match back, and the builder
    answers afterwards what it answered before. *)
Lemma repl_unresolved page link_text target w :
  match fst (_build_navigation_map E w) with
  | Some m => dict_get (lookup_key target) m = None
  | None => True
  end ->
  fst (repl E page link_text target w) = Returns (group0 link_text target)
  /\ fst (_build_navigation_map E (snd (repl E page link_text target w)))
     = fst (_build_navigation_map E w).
Proof.
  intros H. unfold repl.
  destruct (negb (startswith "api:" target)); [auto|].
  destruct (negb (nonempty (lookup_key target))); [auto|].
  pose proof (build_again w) as Ha.
  destruct (build_completes E w) as [_ Hs].
  destruct (_build_navigation_map E w) as [[[|kv m]|] w1]; cbn [fst snd] in *;
    try (split; [reflexivity|exact Ha]).
  rewrite H.
  destruct (report_miss_returns E page (kv :: m) (lookup_key target) w1)
    as (w2 & -> & Hp). cbn [fst snd]. split; [reflexivity|].
  rewrite (build_after_printing w1 w2 Hs Hp). exact Ha.
Qed.

Lemma sub_tokens_unresolved page ts w :
  (forall link_text target,
      In (TLink link_text target) ts ->
      match fst (_build_navigation_map E w) with
      | Some m => dict_get (lookup_key target) m = None
      | None => True
      end) ->
  fst (sub_tokens E page ts w) = Returns (text_of ts).
Proof.
  revert w; induction ts as [|[c|lt tg] ts IH]; intros w H; simpl.
  - reflexivity.
  - assert (Hts : fst (sub_tokens E page ts w) = Returns (text_of ts)).
    { apply IH. intros lt tg Hin. apply (H lt tg). now right. }
    destruct (sub_tokens E page ts w) as [[out|e] w']; cbn [fst] in *;
      congruence.
  - destruct (repl_unresolved page lt tg w (H lt tg (or_introl eq_refl)))
      as [Hr Hb].
    destruct (repl E page lt tg w) as [[r|e] w1]; cbn [fst snd] in *;
      [|discriminate].
    injection Hr as ->.
    assert (Hts : fst (sub_tokens E page ts w1) = Returns (text_of ts)).
    { apply IH. intros lt' tg' Hin. rewrite Hb. apply (H lt' tg'). now right. }
    destruct (sub_tokens E page ts w1) as [[out|e] w2]; cbn [fst] in *;
      [injection Hts as ->; reflexivity|discriminate].
Qed.

End UnresolvedFacts.

(** X5.  In a world where the builder gives no index, whether it failed
    before or fails now, every page is returned as it is. *)
Theorem page_unchanged_without_index (E : Env) (markdown : string)
    (page : page_info) (w : world) :
  fst (_build_navigation_map E w) = None ->
  fst (on_page_markdown E markdown page w) = Returns markdown.
Proof.
  intros H. unfold on_page_markdown.
  rewrite sub_tokens_unresolved, text_of_scan; [reflexivity|].
  intros lt tg _. now rewrite H.
Qed.

Lemma page_unchanged_without_index_witness :
  fst (on_page_markdown unreachable_site
         "See [Agent](api:agents::Agent) and [Tool ](api: tools::Tool)."
         guide_page initial_world)
  = Returns "See [Agent](api:agents::Agent) and [Tool ](api: tools::Tool).".
Proof.
  apply (page_unchanged_without_index unreachable_site). reflexivity.
Defined.

(** X6.  A page none of whose links has its key bound in the index is
    returned as it is, whatever is printed about its links. *)
Theorem page_unchanged_when_all_miss (E : Env) (markdown : string)
    (page : page_info) (w : world) (m : dict) :
  fst (_build_navigation_map E w) = Some m ->
  (forall link_text target,
      In (TLink link_text target) (scan markdown) ->
      dict_get (lookup_key target) m = None) ->
  fst (on_page_markdown E markdown page w) = Returns markdown.
Proof.
  intros Hb H. unfold on_page_markdown.
  rewrite sub_tokens_unresolved, text_of_scan; [reflexivity|].
  intros lt tg Hin. rewrite Hb. now apply (H lt tg).
Qed.

Lemma page_unchanged_when_all_miss_witness :
  fst (on_page_markdown (site [entry "agents::Agent" "agents/index.html"])
         "See [Tool](api:tools::Tool)." guide_page initial_world)
  = Returns "See [Tool](api:tools::Tool).".
Proof.
  apply (page_unchanged_when_all_miss
           (site [entry "agents::Agent" "agents/index.html"])
           "See [Tool](api:tools::Tool)." guide_page initial_world
           [("agents::Agent", "https://api.koog.ai/agents/index.html")]).
  - reflexivity.
  - intros lt tg Hin. vm_compute in Hin.
    repeat (destruct Hin as [H|Hin];
            [first [discriminate | injection H as <- <-; reflexivity]|]).
    destruct Hin.
Defined.

(** * Further properties of the index *)

Section IndexContents.

Variable E : Env.

Lemma store_new_present k u b :
  dict_mem k (result b) = true -> store_new k u b = b.
Proof. unfold store_new. now intros ->. Qed.

Lemma store_new_source k u b k' v :
  dict_get k' (result (store_new k u b)) = Some v ->
  dict_get k' (result b) = Some v \/ (k' = k /\ v = u).
Proof.
  unfold store_new. destruct (dict_mem k (result b)); cbn [negb]; [auto|].
  simpl. destruct (String.eqb_spec k k') as [<-|Hne].
  - rewrite dict_get_set_same. intros H. injection H as <-. auto.
  - rewrite dict_get_set_other by exact Hne. auto.
Qed.

Lemma dict_set_length k v d : List.length (dict_set k v d) <= S (List.length d).
Proof.
  induction d as [|[k0 v0] d IH]; simpl; [lia|].
  destruct (String.eqb k0 k); simpl; lia.
Qed.

Lemma store_new_length k u b :
  List.length (result (store_new k u b)) <= S (List.length (result b)).
Proof.
  unfold store_new. destruct (dict_mem k (result b)); cbn [negb]; [lia|].
  apply dict_set_length.
Qed.

(** Where a binding of the loop body's result comes from. *)
Lemma store_variants_source pageid u b k v :
  dict_get k (result (store_variants pageid (split1_head "///" pageid) u b)) = Some v ->
  dict_get k (result b) = Some v \/ (variant_of pageid k /\ v = u).
Proof.
  rewrite store_variants_eq. cbv zeta. unfold variant_of. cbv zeta.
  generalize (split1_head "///" pageid). intros key.
  assert (H2 : dict_get k
                 (result (if contains "///" pageid
                          then store_new (replace "/" "." key) u (store_new key u b)
                          else store_new key u b)) = Some v ->
               dict_get k (result b) = Some v
               \/ ((k = key \/ (contains "///" pageid = true
                                /\ k = replace "/" "." key)) /\ v = u)).
  { destruct (contains "///" pageid); intros H.
    - apply store_new_source in H as [H|[Hk Hv]].
      + apply store_new_source in H as [H|[Hk Hv]]; intuition.
      + intuition.
    - apply store_new_source in H as [H|[Hk Hv]]; intuition. }
  destruct (contains "//" key).
  2:{ intros H. apply H2 in H. intuition. }
  destruct (nonempty (trimmed_of key)).
  2:{ intros H. apply H2 in H. intuition. }
  intros H. apply store_new_source in H as [H|[Hk Hv]].
  - apply store_new_source in H as [H|[Hk Hv]].
    + apply H2 in H. intuition.
    + intuition.
  - intuition.
Qed.

Lemma store_variants_length pageid key u b :
  List.length (result (store_variants pageid key u b))
  <= 4 + List.length (result b).
Proof.
  rewrite store_variants_eq. cbv zeta.
  pose proof (store_new_length key u b) as H1.
  set (b1 := store_new key u b) in *.
  pose proof (store_new_length (replace "/" "." key) u b1) as H2.
  set (b2 := if contains "///" pageid
             then store_new (replace "/" "." key) u b1 else b1).
  assert (Hb2 : List.length (result b2) <= 2 + List.length (result b))
    by (unfold b2; destruct (contains "///" pageid); lia).
  destruct (contains "//" key); [|lia].
  destruct (nonempty (trimmed_of key)); [|lia].
  pose proof (store_new_length (trimmed_of key) u b2) as H3.
  pose proof (store_new_length
                (replace "/" "." (replace "//" "." (trimmed_of key))) u
                (store_new (trimmed_of key) u b2)) as H4.
  lia.
Qed.

(** The loop body in terms of the href it keeps. *)
Lemma process_div_link b div :
  process_div E b div =
  match link_of div with
  | Some href =>
      store_variants (div_pageid div) (split1_head "///" (div_pageid div))
        (normalize_href E href) b
  | None => b
  end.
Proof.
  unfold process_div, link_of.
  destruct (nonempty (div_pageid div)); cbn [negb]; [|reflexivity].
  destruct (div_toc_row div) as [[[[[href|]]|]]|]; try reflexivity.
  cbn [row_a a_href]. now destruct (nonempty href).
Qed.

(** Once the variants of an element are bound, the element changes
    nothing. *)
Lemma process_div_absorbed b b' div :
  (forall k v, dict_get k (result (process_div E b div)) = Some v ->
               dict_get k (result b') = Some v) ->
  process_div E b' div = b'.
Proof.
  rewrite !process_div_link. destruct (link_of div) as [href|]; [|reflexivity].
  set (pageid := div_pageid div). set (key := split1_head "///" pageid).
  set (u := normalize_href E href). intros Hkeep.
  assert (Hmem : forall k, dict_mem k (result (store_variants pageid key u b)) = true ->
                           dict_mem k (result b') = true).
  { intros k Hk. apply dict_mem_get in Hk as [v Hv].
    apply dict_mem_get. exists v. now apply Hkeep. }
  rewrite store_variants_eq. cbv zeta.
  rewrite (store_new_present key u b')
    by (apply Hmem, store_variants_key).
  assert (H2 : (if contains "///" pageid
                then store_new (replace "/" "." key) u b' else b') = b').
  { destruct (contains "///" pageid) eqn:Hp; [|reflexivity].
    apply store_new_present, Hmem. now apply store_variants_dotted. }
  rewrite H2.
  destruct (contains "//" key) eqn:Hc; [|reflexivity].
  destruct (nonempty (trimmed_of key)) eqn:Ht; [|reflexivity].
  destruct (store_variants_trimmed pageid key u b Hc Ht) as [M1 M2].
  rewrite (store_new_present (trimmed_of key) u b') by (apply Hmem, M1).
  apply store_new_present, Hmem, M2.
Qed.

Lemma build_from_source divs b k v :
  dict_get k (result (build_from E b divs)) = Some v ->
  dict_get k (result b) = Some v
  \/ exists div href,
       In div divs /\ link_of div = Some href
       /\ variant_of (div_pageid div) k /\ v = normalize_href E href.
Proof.
  revert b; induction divs as [|d divs IH]; intros b H; [auto|].
  simpl in H. apply IH in H as [H|(div & href & Hin & Hl & Hv & ->)].
  - rewrite process_div_link in H. destruct (link_of d) as [href|] eqn:Hl; [|auto].
    apply store_variants_source in H as [H|[Hv ->]]; [auto|].
    right. exists d, href. simpl. auto.
  - right. exists div, href. simpl. auto.
Qed.

Lemma build_from_length divs b :
  List.length (result (build_from E b divs))
  <= 4 * List.length divs + List.length (result b).
Proof.
  revert b; induction divs as [|d divs IH]; intros b; [simpl; lia|].
  cbn [build_from fold_left]. fold (build_from E (process_div E b d) divs).
  specialize (IH (process_div E b d)).
  assert (Hd : List.length (result (process_div E b d)) <= 4 + List.length (result b)).
  { rewrite process_div_link. destruct (link_of d); [apply store_variants_length|lia]. }
  cbn [List.length]. lia.
Qed.

End IndexContents.

(** X7.  Every binding of the index comes from an element of the page
    that has a non-empty identifier and a row anchor with a non-empty href:
    its key is one of the key variants of that element's identifier and its
    value is that element's href, resolved against the page's URL, or raw
    when the resolution raises. *)
Theorem index_bindings_come_from_elements (E : Env) (divs : list nav_div)
    (k v : string) :
  dict_get k (result (build_index E divs)) = Some v ->
  exists div href,
    In div divs
    /\ link_of div = Some href
    /\ variant_of (div_pageid div) k
    /\ v = normalize_href E href.
Proof.
  intros H. apply build_from_source in H as [H|H]; [discriminate|exact H].
Qed.

Lemma index_bindings_come_from_elements_witness :
  exists div href,
    In div [entry "x" "x.html"; entry "ai/pkg//member/extra///rest" "b.html"]
    /\ link_of div = Some href
    /\ variant_of (div_pageid div) "ai.pkg.member"
    /\ "https://api.koog.ai/b.html" = normalize_href (site []) href.
Proof.
  apply (index_bindings_come_from_elements (site [])
           [entry "x" "x.html"; entry "ai/pkg//member/extra///rest" "b.html"]
           "ai.pkg.member" "https://api.koog.ai/b.html").
  reflexivity.
Defined.

(** X8.  An element met again later in the page, wherever that is,
    changes nothing: the index, and the assignments executed, are those
    of the page without the repetition. *)
Theorem repeated_element_changes_nothing (E : Env) (divs rest : list nav_div)
    (div : nav_div) :
  In div divs ->
  build_index E (divs ++ div :: rest) = build_index E (divs ++ rest).
Proof.
  intros Hin. unfold build_index. rewrite !build_from_app.
  change (build_from E (build_from E empty_index divs) (div :: rest))
    with (build_from E (process_div E (build_from E empty_index divs) div) rest).
  f_equal.
  apply in_split in Hin as (l1 & l2 & ->).
  apply (process_div_absorbed E (build_from E empty_index l1)).
  intros k v H. rewrite build_from_app. simpl. now apply build_from_keeps.
Qed.

Lemma repeated_element_changes_nothing_witness :
  build_index (site [])
    ([entry "pkg//f/x" "2.html"; entry "a///b" "1.html"]
     ++ entry "pkg//f/x" "2.html" :: [entry "c" "3.html"; entry "a///b" "4.html"])
  = build_index (site [])
      ([entry "pkg//f/x" "2.html"; entry "a///b" "1.html"]
       ++ [entry "c" "3.html"; entry "a///b" "4.html"]).
Proof.
  apply (repeated_element_changes_nothing (site [])).
  left. reflexivity.
Defined.

(** X9.  The index has at most four entries per element of the page. *)
Theorem index_size_bound (E : Env) (divs : list nav_div) :
  List.length (result (build_index E divs)) <= 4 * List.length divs.
Proof.
  pose proof (build_from_length E divs empty_index) as H. simpl in H.
  unfold build_index. lia.
Qed.

(** X10.  An element with an empty identifier, or without a row, or
    whose row has no anchor, or whose anchor has no href or an empty one,
    takes no part in the index: the page without it gives the same index
    and the same assignments. *)
Theorem element_without_link_is_skipped (E : Env) (pre post : list nav_div)
    (div : nav_div) :
  link_of div = None ->
  build_index E (pre ++ div :: post) = build_index E (pre ++ post).
Proof.
  intros H. unfold build_index. rewrite !build_from_app. simpl.
  now rewrite process_div_link, H.
Qed.

Lemma element_without_link_is_skipped_witness :
  build_index (site [])
    ([entry "a" "1.html"]
     ++ {| div_pageid := "b///c";
           div_toc_row := Some {| row_a := Some {| a_href := Some "" |} |} |}
        :: [entry "b" "2.html"])
  = build_index (site []) ([entry "a" "1.html"] ++ [entry "b" "2.html"]).
Proof.
  apply (element_without_link_is_skipped (site [])). reflexivity.
Defined.

(** * Further properties of the scan and of the display text *)

Section LinkShape.

Lemma match_at_target s link_text target rest :
  match_at s = Some (link_text, target, rest) ->
  exists tail,
    target = "api:" ++ tail /\ nonempty tail = true /\ contains ")" tail = false.
Proof.
  unfold match_at. destruct s as [|c s1]; [discriminate|].
  destruct (Ascii.eqb c "["); [|discriminate].
  destruct (span_not "]" s1) as [lt1 r1].
  destruct (nonempty lt1 && startswith "](api:" r1); [|discriminate].
  pose proof (span_not_free ")" (drop 6 r1)) as Hfree.
  destruct (span_not ")" (drop 6 r1)) as [tl r2]. cbn [fst] in Hfree.
  destruct (nonempty tl && startswith ")" r2) eqn:Hg; [|discriminate].
  apply andb_prop in Hg as [Hne _].
  intros H. injection H as _ <- _. exists tl. auto.
Qed.

Lemma scan_link_shape s link_text target :
  In (TLink link_text target) (scan s) ->
  nonempty link_text = true
  /\ contains "]" link_text = false
  /\ exists tail,
       target = "api:" ++ tail /\ nonempty tail = true /\ contains ")" tail = false.
Proof.
  remember (String.length s) as n eqn:Hn.
  revert s Hn. induction n as [n IH] using lt_wf_ind. intros s Hn.
  destruct s as [|c s]; [intros []|].
  rewrite scan_cons.
  destruct (match_at (String c s)) as [[[lt tg] rest]|] eqn:Hm.
  - pose proof (match_at_inv _ _ _ _ Hm) as (Htext & Hne & Hfree & _).
    intros [H|H].
    + injection H as <- <-. split; [exact Hne|]. split; [exact Hfree|].
      exact (match_at_target _ _ _ _ Hm).
    + assert (Hlen : String.length rest < n).
      { rewrite Hn, Htext, length_append. unfold group0. simpl. lia. }
      exact (IH _ Hlen rest eq_refl H).
  - intros [H|H]; [discriminate|].
    assert (Hlen : String.length s < n) by (simpl in Hn; lia).
    exact (IH _ Hlen s eq_refl H).
Qed.

(** Text free of "[" before a text is scanned character by character. *)
Lemma scan_plain_prefix pre s :
  contains "[" pre = false ->
  scan (pre ++ s)
  = (map TChar (list_ascii_of_string pre) ++ scan s)%list.
Proof.
  induction pre as [|c pre IH]; [reflexivity|].
  rewrite contains_char_cons. intros H. apply orb_false_elim in H as [Hc H].
  cbn [append]. rewrite scan_cons. unfold match_at.
  rewrite Ascii.eqb_sym, Hc. simpl. now rewrite (IH H).
Qed.

Lemma scan_plain s :
  contains "](api:" s = false -> scan s = map TChar (list_ascii_of_string s).
Proof.
  induction s as [|c s IH]; [reflexivity|]. intros H.
  rewrite scan_cons.
  destruct (match_at (String c s)) as [[[lt tg] rest]|] eqn:Hm.
  - apply match_at_inv in Hm as (_ & _ & _ & _ & Hc). congruence.
  - rewrite contains_cons in H. apply orb_false_elim in H as [_ H].
    simpl. now rewrite (IH H).
Qed.

End LinkShape.

Section PlainText.

Variable E : Env.

Lemma sub_tokens_chars page l ts w :
  sub_tokens E page (map TChar (list_ascii_of_string l) ++ ts) w
  = match sub_tokens E page ts w with
    | (Returns out, w') => (Returns (l ++ out), w')
    | (Raises e, w') => (Raises e, w')
    end.
Proof.
  induction l as [|c l IH]; simpl.
  - now destruct (sub_tokens E page ts w) as [[out|e] w'].
  - rewrite IH. now destruct (sub_tokens E page ts w) as [[out|e] w'].
Qed.

End PlainText.

(** X11.  Every match the scan cuts out of a text has a non-empty display
    text free of "]" and a target made of [api:] and a non-empty tail free
    of ")"; so the test of the [api:] prefix at the head of [repl] never
    fails on a match. *)
Theorem scanned_links_are_api_links (s link_text target : string) :
  In (TLink link_text target) (scan s) ->
  nonempty link_text = true
  /\ contains "]" link_text = false
  /\ startswith "api:" target = true
  /\ exists tail,
       target = "api:" ++ tail /\ nonempty tail = true /\ contains ")" tail = false.
Proof.
  intros H. destruct (scan_link_shape s link_text target H)
    as (H1 & H2 & tail & -> & H3 & H4).
  split; [exact H1|]. split; [exact H2|]. split; [reflexivity|].
  exists tail. auto.
Qed.

Lemma scanned_links_are_api_links_witness :
  nonempty "a[b" = true
  /\ contains "]" "a[b" = false
  /\ startswith "api:" "api:k/x" = true
  /\ exists tail,
       "api:k/x" = "api:" ++ tail /\ nonempty tail = true /\ contains ")" tail = false.
Proof.
  apply (scanned_links_are_api_links "see [a[b](api:k/x) and (more)").
  vm_compute. do 4 right. left. reflexivity.
Defined.

(** X12.  Around a link that resolves, the text before it, when it holds
    no "[", and the text after it, when it holds no "](api:", come out as
    they went in. *)
Theorem text_around_a_link_is_kept (E : Env) (page : page_info)
    (pre T K post : string) (w w1 : world) (m : dict) (href resolved : string) :
  contains "[" pre = false ->
  contains "](api:" post = false ->
  nonempty T = true ->
  contains "]" T = false ->
  contains ")" K = false ->
  nonempty (strip K) = true ->
  _build_navigation_map E w = (Some m, w1) ->
  dict_get (strip K) m = Some href ->
  nonempty href = true ->
  urljoin E BASE_URL href = Returns resolved ->
  on_page_markdown E (pre ++ group0 T ("api:" ++ K) ++ post) page w
  = (Returns (pre ++ ("[" ++ sub_ws "-" (strip T) ++ "](" ++ resolved ++ ")")
              ++ post), w1).
Proof.
  intros Hpre Hpost HT HnT HnK Hk Hb Hg Hh Hu. unfold on_page_markdown.
  rewrite (scan_plain_prefix pre _ Hpre), sub_tokens_chars.
  assert (Hscan : scan (group0 T ("api:" ++ K) ++ post)
                  = TLink T ("api:" ++ K) :: scan post).
  { pose proof (match_at_link T K post HT HnT (strip_empty_inv K Hk) HnK) as Hm.
    unfold group0 in *. cbn [append] in *. rewrite scan_cons, Hm. reflexivity. }
  rewrite Hscan. cbn [sub_tokens].
  rewrite (repl_hit E page T K w w1 m href Hk Hb Hg Hh), Hu.
  rewrite (scan_plain post Hpost).
  rewrite <- (app_nil_r (map TChar (list_ascii_of_string post))).
  rewrite sub_tokens_chars. cbn [sub_tokens]. now rewrite append_nil_r.
Qed.

Lemma text_around_a_link_is_kept_witness :
  on_page_markdown (site [])
    ("See " ++ group0 "the Agent" ("api:" ++ "agents::Agent") ++ " (or [docs](x)).")
    guide_page
    (built [("agents::Agent", "https://api.koog.ai/agents/index.html")])
  = (Returns ("See " ++ ("[" ++ sub_ws "-" (strip "the Agent") ++ "]("
                         ++ "https://api.koog.ai/agents/index.html" ++ ")")
              ++ " (or [docs](x))."),
     built [("agents::Agent", "https://api.koog.ai/agents/index.html")]).
Proof.
  apply (text_around_a_link_is_kept (site []) guide_page "See " "the Agent"
           "agents::Agent" " (or [docs](x))."
           (built [("agents::Agent", "https://api.koog.ai/agents/index.html")])
           (built [("agents::Agent", "https://api.koog.ai/agents/index.html")])
           [("agents::Agent", "https://api.koog.ai/agents/index.html")]
           "https://api.koog.ai/agents/index.html"
           "https://api.koog.ai/agents/index.html"); reflexivity.
Defined.

(** X13.  The display text of a rewritten link is a fixed point of the
    display transformation: stripping it and collapsing its whitespace
    again changes nothing. *)
Theorem display_text_is_stable (link_text : string) :
  sub_ws "-" (strip (sub_ws "-" (strip link_text)))
  = sub_ws "-" (strip link_text).
Proof. apply display_without_space, sub_ws_go_no_space. Qed.

(** * Further properties of the helpers *)

Section HelperFacts.

Lemma find_nat_split sep s n :
  find_nat sep s = Some n ->
  s = take n s ++ sep ++ drop (n + String.length sep) s.
Proof.
  revert n; induction s as [|c s IH]; intros n; rewrite find_nat_unfold.
  - destruct (startswith sep "") eqn:Hs; [|discriminate].
    intros H. injection H as <-. now apply startswith_split in Hs.
  - destruct (startswith sep (String c s)) eqn:Hs.
    + intros H. injection H as <-. now apply startswith_split in Hs.
    + destruct (find_nat sep s) as [k|]; [|discriminate].
      intros H. injection H as <-. simpl. f_equal. now apply IH.
Qed.

Lemma rstrip_by_prefix p s : exists r, s = rstrip_by p s ++ r.
Proof.
  induction s as [|c s [r IH]]; [now exists ""|]. simpl.
  destruct (rstrip_by p s) as [|d t].
  - destruct (p c); [now exists (String c s)|]. exists s. reflexivity.
  - exists r. simpl in *. now rewrite <- IH.
Qed.

Lemma replace_colons s : replace "::" "::" s = s.
Proof.
  unfold replace. remember (String.length s) as n eqn:Hn.
  revert s Hn. induction n as [n IH] using lt_wf_ind. intros s Hn.
  destruct s as [|c s]; [reflexivity|].
  cbn [replace_go]. destruct (startswith "::" (String c s)) eqn:Hs.
  - destruct s as [|d s]; cbn [startswith] in Hs.
    { now rewrite andb_false_r in Hs. }
    apply andb_prop in Hs as [Hc Hs]. apply andb_prop in Hs as [Hd _].
    apply Ascii.eqb_eq in Hc, Hd. subst c d.
    cbn [String.length Nat.sub replace_go append]. do 2 f_equal.
    apply (IH (String.length s)); [simpl in Hn; lia|reflexivity].
  - f_equal. apply (IH (String.length s)); [simpl in Hn; lia|reflexivity].
Qed.

End HelperFacts.

(** X14.  The candidates for the suggestions are always keys of the
    index, there is at least one as soon as the index has an entry, and
    they are either all the keys or keys that all start with the key's
    prefix before its first "::" followed by "::". *)
Theorem candidates_are_index_keys (m : dict) (k : string) :
  incl (candidates_for m k) (dict_keys m)
  /\ (candidates_for m k = [] -> m = [])
  /\ (candidates_for m k = dict_keys m
      \/ Forall (fun c => startswith (split1_head "::" k ++ "::") c = true)
           (candidates_for m k)).
Proof.
  rewrite candidates_for_cases. cbv zeta.
  set (f := startswith (split1_head "::" k ++ "::")).
  assert (Hkeys : dict_keys m = [] -> m = [])
    by (destruct m; [auto|discriminate]).
  destruct (contains "::" k && nonempty (split1_head "::" k)).
  2:{ split; [apply incl_refl|]. auto. }
  destruct (filter f (dict_keys m)) as [|c l] eqn:Hf.
  - split; [apply incl_refl|]. auto.
  - split; [|split; [discriminate|right]].
    + rewrite <- Hf. apply incl_filter.
    + rewrite <- Hf. apply Forall_forall. intros x Hx.
      now apply filter_In in Hx.
Qed.

Lemma trimmed_of_prefix key :
  contains "//" key = true ->
  exists dropped, key = trimmed_of key ++ dropped.
Proof.
  unfold contains, trimmed_of, find, slice_to, slice_from.
  destruct (find_nat "//" key) as [n|] eqn:Hn; [|discriminate]. intros _.
  apply find_nat_split in Hn. cbn [String.length] in Hn.
  replace (Z.to_nat (Z.of_nat n + 2)) with (n + 2) by lia. rewrite Nat2Z.id.
  set (before := take n key) in *. set (after := drop (n + 2) key) in *.
  assert (Htok : exists tail,
             after = (if Z.eqb match find_nat "/" after with
                               | Some j => Z.of_nat j
                               | None => (-1)%Z
                               end (-1)
                      then after
                      else take (Z.to_nat match find_nat "/" after with
                                          | Some j => Z.of_nat j
                                          | None => (-1)%Z
                                          end) after) ++ tail).
  { destruct (Z.eqb _ (-1)).
    - exists "". now rewrite append_nil_r.
    - eexists. symmetry. apply take_drop. }
  destruct Htok as [tail Htok]. revert Htok.
  generalize (if Z.eqb match find_nat "/" after with
                       | Some j => Z.of_nat j
                       | None => (-1)%Z
                       end (-1)
              then after
              else take (Z.to_nat match find_nat "/" after with
                                  | Some j => Z.of_nat j
                                  | None => (-1)%Z
                                  end) after).
  intros token Htok. destruct (nonempty token).
  - exists tail. rewrite Hn at 1. rewrite Htok at 1.
    now rewrite !append_assoc.
  - destruct (rstrip_by_prefix (Ascii.eqb "/") before) as [r Hr].
    exists (r ++ "//" ++ after). unfold rstrip_char.
    rewrite <- append_assoc, <- Hr. exact Hn.
Qed.

(** X15.  The trimmed form of a key that contains "//" is a prefix of the
    key: trimming only drops text at the end. *)
Theorem trimmed_key_is_a_prefix (key : string) :
  contains "//" key = true ->
  exists dropped, key = trimmed_of key ++ dropped.
Proof. apply trimmed_of_prefix. Qed.

Lemma trimmed_key_is_a_prefix_witness :
  exists dropped, "ai/pkg//member/extra" = trimmed_of "ai/pkg//member/extra" ++ dropped.
Proof. apply (trimmed_key_is_a_prefix "ai/pkg//member/extra"). reflexivity. Defined.

(** X16.  The encoding read from a [Content-Type] value is the text
    between its first "charset=" and the next ";", or the end of the value,
    with the whitespace at its ends removed; a value without "charset="
    gives "utf-8". *)
Theorem charset_is_the_first_parameter (P V R : string) :
  contains "charset=" (P ++ "charset") = false ->
  contains ";" V = false ->
  R = "" \/ startswith ";" R = true ->
  charset_of (P ++ "charset=" ++ V ++ R) = strip V
  /\ (forall content_type,
         contains "charset=" content_type = false ->
         charset_of content_type = "utf-8").
Proof.
  intros HP HV HR. split.
  - unfold charset_of. rewrite contains_first. unfold split1, item.
    rewrite (find_nat_first "charset=" P (V ++ R) HP).
    cbn [nth_error]. rewrite drop_add, drop_app.
    change (drop (String.length "charset=") ("charset=" ++ V ++ R)) with (V ++ R).
    f_equal. destruct HR as [->|HR].
    + rewrite append_nil_r. unfold split1_head. unfold contains in HV.
      now destruct (find_nat ";" V).
    + apply startswith_split in HR. rewrite HR.
      apply split1_head_first. simpl. now rewrite append_nil_r.
  - intros ct H. unfold charset_of. now rewrite H.
Qed.

Lemma charset_is_the_first_parameter_witness :
  charset_of ("text/html; " ++ "charset=" ++ " ISO-8859-1 " ++ "; boundary=x")
  = strip " ISO-8859-1 "
  /\ (forall content_type,
         contains "charset=" content_type = false ->
         charset_of content_type = "utf-8").
Proof.
  apply (charset_is_the_first_parameter "text/html; " " ISO-8859-1 " "; boundary=x").
  - reflexivity.
  - reflexivity.
  - right. reflexivity.
Defined.

(** X17.  The variant hints of an unresolved key are computed without
    exception; there are at most two of them, none is the key itself, and a
    key that holds neither "/" nor "." has none. *)
Theorem variant_hints_are_few (key : string) :
  exists hints,
    variant_hints key = Returns hints
    /\ List.length hints <= 2
    /\ Forall (fun h => h <> key) hints
    /\ (contains "/" key = false -> contains "." key = false -> hints = []).
Proof.
  unfold variant_hints. rewrite replace_colons.
  set (dotted := replace "/" "." (replace "//" "." key)).
  assert (Hd : Forall (fun h => h <> key)
                 (if negb (String.eqb dotted key) then [dotted] else [])).
  { destruct (String.eqb_spec dotted key); simpl; constructor; auto. }
  assert (Hd0 : contains "/" key = false ->
                (if negb (String.eqb dotted key) then [dotted] else []) = []).
  { intros H. unfold dotted.
    rewrite (replace_slashes_absent key H), (replace_char_absent _ _ _ H).
    now rewrite String.eqb_refl. }
  assert (Hl : List.length (if negb (String.eqb dotted key) then [dotted] else []) <= 1)
    by (destruct (negb (String.eqb dotted key)); simpl; lia).
  revert Hd Hd0 Hl.
  generalize (if negb (String.eqb dotted key) then [dotted] else []).
  intros hints Hd Hd0 Hl.
  destruct (negb (String.eqb (replace "." "/" key) key) && contains "::" key) eqn:Hg.
  2:{ exists hints. repeat split; auto. }
  apply andb_prop in Hg as [Hs Hc].
  assert (Hdot : contains "." key = false -> False).
  { intros H. rewrite (replace_char_absent _ _ _ H), String.eqb_refl in Hs.
    discriminate. }
  unfold contains in Hc. unfold split1.
  destruct (find_nat "::" key) as [n|]; [|discriminate].
  set (sv := take n key ++ "::" ++ replace "." "/" (drop (n + String.length "::") key)).
  destruct (String.eqb_spec sv key) as [He|Hne]; cbn [negb].
  - exists hints. repeat split; auto.
  - exists (hints ++ [sv])%list. split; [reflexivity|]. split; [|split].
    + rewrite length_app. simpl. lia.
    + apply Forall_app. split; [exact Hd|]. constructor; auto.
    + intros _ H. now destruct (Hdot H).
Qed.

(** * Keys that no index holds *)

Section TripleSlash.

Lemma startswith_take p n s :
  startswith p (take n s) = true -> startswith p s = true.
Proof.
  revert n s; induction p as [|a p IH]; intros n s; [reflexivity|].
  destruct n as [|n]; destruct s as [|b s]; simpl; try discriminate.
  intros H. apply andb_prop in H as [-> H]. simpl. now apply (IH n).
Qed.

Lemma startswith_app_l p x y :
  startswith p x = true -> startswith p (x ++ y) = true.
Proof.
  revert x; induction p as [|a p IH]; intros x; [reflexivity|].
  destruct x as [|b x]; simpl; [discriminate|].
  intros H. apply andb_prop in H as [-> H]. simpl. now apply IH.
Qed.

Lemma contains_app_l sub x y :
  contains sub x = true -> contains sub (x ++ y) = true.
Proof.
  induction x as [|c x IH].
  - unfold contains. rewrite find_nat_unfold.
    destruct (startswith sub "") eqn:Hs; [|discriminate]. intros _.
    destruct sub; [|discriminate]. simpl. rewrite find_nat_unfold. reflexivity.
  - cbn [append]. rewrite !contains_cons. intros H.
    apply orb_prop in H as [H|H].
    + change (String c (x ++ y)) with (String c x ++ y).
      now rewrite (startswith_app_l _ _ y H).
    + rewrite (IH H). apply orb_true_r.
Qed.

(** The text before the first occurrence holds no occurrence. *)
Lemma split1_head_free a p s :
  contains (String a p) (split1_head (String a p) s) = false.
Proof.
  unfold split1_head.
  destruct (find_nat (String a p) s) as [n|] eqn:Hn.
  2:{ unfold contains. now rewrite Hn. }
  revert n Hn; induction s as [|c s IH]; intros n; rewrite find_nat_unfold.
  - simpl. discriminate.
  - destruct (startswith (String a p) (String c s)) eqn:Hs.
    + intros H. injection H as <-. reflexivity.
    + destruct (find_nat (String a p) s) as [k|]; [|discriminate].
      intros H. injection H as <-. cbn [take]. rewrite contains_cons.
      rewrite (IH k eq_refl), orb_false_r.
      destruct (startswith (String a p) (String c (take k s))) eqn:Ht;
        [|reflexivity].
      change (String c (take k s)) with (take (S k) (String c s)) in Ht.
      apply startswith_take in Ht. congruence.
Qed.

Lemma contains_char_replaced c new s :
  contains (String c "") new = false ->
  contains (String c "") (replace (String c "") new s) = false.
Proof.
  intros Hn. induction s as [|a s IH]; [reflexivity|].
  rewrite replace_char_cons, contains_char_app, IH, orb_false_r.
  destruct (Ascii.eqb c a) eqn:Ha; [exact Hn|].
  now rewrite contains_char_cons, Ha.
Qed.

Lemma triple_slash_needs_slash s :
  contains "/" s = false -> contains "///" s = false.
Proof.
  induction s as [|c s IH]; [reflexivity|].
  rewrite contains_char_cons, contains_cons. intros H.
  apply orb_false_elim in H as [Hc H]. rewrite (IH H), orb_false_r.
  cbn [startswith]. now rewrite Hc.
Qed.

Lemma variant_of_free pageid k :
  variant_of pageid k -> contains "///" k = false.
Proof.
  unfold variant_of. cbv zeta.
  pose proof (split1_head_free "/" "//" pageid) as Hkey.
  set (key := split1_head "///" pageid) in *.
  intros [->|[[_ ->]|(Hc & _ & [->| ->])]].
  - exact Hkey.
  - now apply triple_slash_needs_slash, contains_char_replaced.
  - destruct (trimmed_of_prefix key Hc) as [dropped Hd].
    destruct (contains "///" (trimmed_of key)) eqn:Ht; [|reflexivity].
    apply (contains_app_l _ _ dropped) in Ht. congruence.
  - now apply triple_slash_needs_slash, contains_char_replaced.
Qed.

End TripleSlash.

Section BuiltIndexes.

Variable E : Env.

Lemma build_index_free divs k v :
  dict_get k (result (build_index E divs)) = Some v -> contains "///" k = false.
Proof.
  intros H. apply build_from_source in H as [H|(div & href & _ & _ & Hv & _)];
    [discriminate|]. now apply (variant_of_free (div_pageid div)).
Qed.

(** An index returned by a first attempt is the index of the elements
    the page parsed to. *)
Lemma build_fresh_index w m :
  _NAV_MAP w = None ->
  fst (_build_navigation_map E w) = Some m ->
  exists divs, m = result (build_index E divs).
Proof.
  intros Hm. unfold _build_navigation_map. rewrite Hm.
  destruct (_NAV_FETCH_FAILED w); [discriminate|].
  destruct (bs4_present E); cbn [negb]; [|discriminate].
  destruct (fetch_navigation E w) as [[html|line] w1]; [|discriminate].
  destruct (find_pageid_divs E html) as [divs|e]; [|discriminate].
  cbn [fst]. intros H. injection H as <-. now exists divs.
Qed.

End BuiltIndexes.

(** X18.  No key of the index holds "///": the text from the first
    triple slash of an identifier on takes part in no key. *)
Theorem index_keys_have_no_triple_slash (E : Env) (divs : list nav_div)
    (k v : string) :
  dict_get k (result (build_index E divs)) = Some v ->
  contains "///" k = false.
Proof. apply build_index_free. Qed.

Lemma index_keys_have_no_triple_slash_witness :
  contains "///" "ai/pkg//member" = false.
Proof.
  apply (index_keys_have_no_triple_slash (site [])
           [entry "ai/pkg//member/extra///rest" "b.html"] "ai/pkg//member"
           "https://api.koog.ai/b.html").
  reflexivity.
Defined.

(** X19.  A link whose key holds "///" is never resolved: in a world
    whose cache, if any, was built by the builder, [repl] returns the match
    as it is. *)
Theorem key_with_triple_slash_never_resolves (E : Env) (page : page_info)
    (link_text tail : string) (w : world) :
  (forall m, _NAV_MAP w = Some m ->
             exists E' divs, m = result (build_index E' divs)) ->
  contains "///" (strip tail) = true ->
  fst (repl E page link_text ("api:" ++ tail) w)
  = Returns (group0 link_text ("api:" ++ tail)).
Proof.
  intros Hw Hk. apply repl_unresolved. rewrite lookup_key_target.
  destruct (fst (_build_navigation_map E w)) as [m|] eqn:Hb; [|exact I].
  assert (Hm : exists E' divs, m = result (build_index E' divs)).
  { destruct (_NAV_MAP w) as [m0|] eqn:Hc.
    - assert (Hs : settled w = true) by (unfold settled; now rewrite Hc).
      rewrite (build_settled E w Hs), Hc in Hb. cbn [fst] in Hb.
      injection Hb as <-. now apply Hw.
    - exists E. now apply (build_fresh_index E w). }
  destruct Hm as (E' & divs & ->).
  destruct (dict_get (strip tail) (result (build_index E' divs))) as [v|] eqn:Hg;
    [|reflexivity].
  apply build_index_free in Hg. congruence.
Qed.

Lemma key_with_triple_slash_never_resolves_witness :
  fst (repl (site [entry "proj///mod/Cls" "mod/Cls/index.html"]) guide_page "Cls"
         ("api:" ++ "proj///mod/Cls") initial_world)
  = Returns (group0 "Cls" ("api:" ++ "proj///mod/Cls")).
Proof.
  apply (key_with_triple_slash_never_resolves
           (site [entry "proj///mod/Cls" "mod/Cls/index.html"]) guide_page "Cls"
           "proj///mod/Cls" initial_world).
  - intros m H. discriminate H.
  - reflexivity.
Defined.
